(** * ilovegcr: the attachment downloader's pure core

    A shallow embedding of the background worker ([background.js]) and of
    the page scanner ([content.js]), with the properties their
    specification states about them.

    JavaScript strings are sequences of UTF-16 code units; they are
    modelled as [list N], one number per code unit.  String literals of
    the source are written [lit "..."]. *)

From Stdlib Require Import NArith ZArith List Ascii String Lia Bool.
From Stdlib Require Import DecimalString.
From stdpp Require Import base list gmap.

Local Open Scope N_scope.

(** ** JavaScript strings *)

Abbreviation jsstring := (list N).

Definition lit (s : string) : jsstring :=
  map N_of_ascii (list_ascii_of_string s).

Definition jseq (s t : jsstring) : bool := bool_decide (s = t).

(** [s.startsWith(p)], returning what follows the prefix. *)
Fixpoint strip_prefix (p s : jsstring) : option jsstring :=
  match p, s with
  | [], _ => Some s
  | a :: p', b :: s' => if N.eqb a b then strip_prefix p' s' else None
  | _ :: _, [] => None
  end.

Definition startsWith (s p : jsstring) : bool :=
  match strip_prefix p s with Some _ => true | None => false end.

(** [s.includes(t)]: some position of [s] starts with [t]. *)
Fixpoint includes (s t : jsstring) : bool :=
  startsWith s t ||
  match s with
  | [] => false
  | _ :: s' => includes s' t
  end.

(** [s.endsWith(t)]. *)
Definition endsWith (s t : jsstring) : bool :=
  startsWith (rev s) (rev t).

(** [s.substring(0, n)]. *)
Definition substring0 (n : nat) (s : jsstring) : jsstring := take n s.

(** [a || b] on strings: the empty string is falsy. *)
Definition or_default (s d : jsstring) : jsstring :=
  match s with [] => d | _ => s end.

(** Prop-level reading of [includes]. *)
Definition Contains (s t : jsstring) : Prop :=
  ∃ pre post, s = pre ++ t ++ post.

(** ** Character classes of the regular expressions *)

(** [\s] and the characters removed by [trim()]: WhiteSpace and
    LineTerminator of ECMAScript. *)
Definition is_space (c : N) : bool :=
  ((9 <=? c) && (c <=? 13)) || (c =? 32) || (c =? 160) || (c =? 5760) ||
  ((8192 <=? c) && (c <=? 8202)) || (c =? 8232) || (c =? 8233) ||
  (c =? 8239) || (c =? 8287) || (c =? 12288) || (c =? 65279).

(** The class of characters refused in file names: less-than,
    greater-than, colon, double quote, slash, backslash, bar, question
    mark and star. *)
Definition is_illegal (c : N) : bool :=
  (c =? 60) || (c =? 62) || (c =? 58) || (c =? 34) || (c =? 47) ||
  (c =? 92) || (c =? 124) || (c =? 63) || (c =? 42).

(** [[a-zA-Z0-9]] *)
Definition is_alnum (c : N) : bool :=
  ((97 <=? c) && (c <=? 122)) || ((65 <=? c) && (c <=? 90)) ||
  ((48 <=? c) && (c <=? 57)).

(** [[\s._]] *)
Definition is_junk (c : N) : bool :=
  is_space c || (c =? 46) || (c =? 95).

(** What [.] refuses: the line terminators. *)
Definition is_line_terminator (c : N) : bool :=
  (c =? 10) || (c =? 13) || (c =? 8232) || (c =? 8233).

(** ** Regular-expression helpers *)

(** [.replace(/[class]/g, r)] *)
Definition replace_class (cls : N → bool) (r : N) (s : jsstring) : jsstring :=
  map (λ c, if cls c then r else c) s.

(** [.replace(/\s+/g, " ")]: [inrun] says that the previous character
    belonged to the run being replaced. *)
Fixpoint collapse_from (inrun : bool) (s : jsstring) : jsstring :=
  match s with
  | [] => []
  | c :: s' =>
      if is_space c
      then (if inrun then collapse_from true s' else 32 :: collapse_from true s')
      else c :: collapse_from false s'
  end.

Definition collapse_spaces (s : jsstring) : jsstring := collapse_from false s.

Fixpoint drop_while (p : N → bool) (s : jsstring) : jsstring :=
  match s with
  | [] => []
  | c :: s' => if p c then drop_while p s' else s
  end.

(** [.replace(/^[class]+|[class]+$/g, "")] *)
Definition strip_class (p : N → bool) (s : jsstring) : jsstring :=
  rev (drop_while p (rev (drop_while p s))).

(** [.trim()] *)
Definition trim (s : jsstring) : jsstring := strip_class is_space s.

(** The greedy run [[^stop]*]. *)
Fixpoint take_until (stop : N) (s : jsstring) : jsstring :=
  match s with
  | [] => []
  | c :: s' => if N.eqb c stop then [] else c :: take_until stop s'
  end.

(** One attempt of [/literal([^stop]+)/] at the head of [s]. *)
Definition match_here (l : jsstring) (stop : N) (s : jsstring) : option jsstring :=
  match strip_prefix l s with
  | Some rest =>
      match take_until stop rest with
      | [] => None
      | id => Some id
      end
  | None => None
  end.

(** [s.match(/literal([^stop]+)/)]: the leftmost position that matches;
    the result is capture group 1. *)
Fixpoint regex_capture (l : jsstring) (stop : N) (s : jsstring) : option jsstring :=
  match match_here l stop s with
  | Some id => Some id
  | None =>
      match s with
      | [] => None
      | _ :: s' => regex_capture l stop s'
      end
  end.

(** ** background.js: URL conversion *)

Definition slash : N := 47.
Definition amp : N := 38.

Definition re_drive_file : jsstring := lit "drive.google.com/file/d/".
Definition re_drive_open : jsstring := lit "drive.google.com/open?id=".
Definition re_docs : jsstring := lit "docs.google.com/document/d/".
Definition re_sheets : jsstring := lit "docs.google.com/spreadsheets/d/".
Definition re_slides : jsstring := lit "docs.google.com/presentation/d/".

Definition convertToDownloadUrl (url : jsstring) : jsstring :=
  match regex_capture re_drive_file slash url with
  | Some fileId => lit "https://drive.google.com/uc?export=download&id=" ++ fileId
  | None =>
  match regex_capture re_drive_open amp url with
  | Some fileId => lit "https://drive.google.com/uc?export=download&id=" ++ fileId
  | None =>
  match regex_capture re_docs slash url with
  | Some docId =>
      lit "https://docs.google.com/document/d/" ++ docId ++ lit "/export?format=docx"
  | None =>
  match regex_capture re_sheets slash url with
  | Some sheetId =>
      lit "https://docs.google.com/spreadsheets/d/" ++ sheetId ++ lit "/export?format=xlsx"
  | None =>
  match regex_capture re_slides slash url with
  | Some slidesId =>
      lit "https://docs.google.com/presentation/d/" ++ slidesId ++ lit "/export/pptx"
  | None => url
  end end end end end.

(** ** background.js: sanitization *)

Definition DEFAULT_FOLDER : jsstring := lit "Classroom_Download".
Definition DEFAULT_FILE : jsstring := lit "unnamed_file".

Definition sanitizeFolderName (name : jsstring) : jsstring :=
  match name with
  | [] => DEFAULT_FOLDER
  | _ =>
      or_default
        (substring0 100
           (trim (collapse_spaces (replace_class is_illegal 32 name))))
        DEFAULT_FOLDER
  end.

Definition dot : N := 46.
Definition underscore : N := 95.

(** [/\.[a-zA-Z0-9]{2,5}$/.test(s)] *)
Fixpoint has_extension (s : jsstring) : bool :=
  match s with
  | [] => false
  | c :: s' =>
      ((c =? dot) && forallb is_alnum s' &&
       Nat.leb 2 (length s') && Nat.leb (length s') 5)
      || has_extension s'
  end.

(** [s.match(/\.([a-zA-Z0-9]+)$/)], element 0 of the result. *)
Fixpoint ext_match (s : jsstring) : option jsstring :=
  match s with
  | [] => None
  | c :: s' =>
      if (c =? dot) && Nat.leb 1 (length s') && forallb is_alnum s'
      then Some s
      else ext_match s'
  end.

(** [s.slice(0, -n)] for a positive [n]. *)
Definition slice_off (n : nat) (s : jsstring) : jsstring :=
  take (length s - n)%nat s.

(** The chain of replacements applied to the name part. *)
Definition clean_name (s : jsstring) : jsstring :=
  strip_class is_junk (collapse_spaces (replace_class is_illegal underscore s)).

Definition sanitizeFilename (filename url : jsstring) : jsstring :=
  let hasExtension := has_extension filename in
  let '(ext, nameWithoutExt) :=
    if hasExtension then
      let ext := match ext_match filename with Some m => m | None => [] end in
      (ext, match ext with
            | [] => filename
            | _ => slice_off (length ext) filename
            end)
    else
      (if includes url (lit "docs.google.com/document") then lit ".docx"
       else if includes url (lit "docs.google.com/spreadsheets") then lit ".xlsx"
       else if includes url (lit "docs.google.com/presentation") then lit ".pptx"
       else if includes url (lit "drive.google.com") then []
       else [],
       filename) in
  let sanitizedName :=
    or_default (substring0 200 (clean_name nameWithoutExt)) DEFAULT_FILE in
  sanitizedName ++ ext.

(** ** background.js: the timestamp *)

(** The local-time getters of a [Date]. *)
Record Date := {
  getFullYear : Z;
  getMonth : Z;
  getDate : Z;
  getHours : Z;
  getMinutes : Z;
  getSeconds : Z
}.

(** [String(n)] for an integer. *)
Definition String_of_int (n : Z) : jsstring :=
  lit (NilZero.string_of_int (Z.to_int n)).

(** [s.padStart(n, fill)] with a one-character filler. *)
Definition padStart (n : nat) (fill : N) (s : jsstring) : jsstring :=
  replicate (n - length s)%nat fill ++ s.

Definition zero_char : N := 48.
Definition dash : N := 45.

Definition generateTimestamp (now : Date) : jsstring :=
  let year := String_of_int (getFullYear now) in
  let month := padStart 2 zero_char (String_of_int (getMonth now + 1)) in
  let day := padStart 2 zero_char (String_of_int (getDate now)) in
  let hours := padStart 2 zero_char (String_of_int (getHours now)) in
  let minutes := padStart 2 zero_char (String_of_int (getMinutes now)) in
  let seconds := padStart 2 zero_char (String_of_int (getSeconds now)) in
  year ++ [dash] ++ month ++ [dash] ++ day ++ [underscore] ++
  hours ++ [dash] ++ minutes ++ [dash] ++ seconds.

(** ** background.js: the download batch *)

Record Attachment := {
  att_url : jsstring;
  att_filename : jsstring
}.

Record DownloadOptions := {
  opt_url : jsstring;
  opt_filename : jsstring;
  opt_saveAs : bool
}.

(** What the callback of [chrome.downloads.download] observes:
    [chrome.runtime.lastError] (its message) and the [downloadId]
    argument, [None] for [undefined]. *)
Record DownloadCallback := {
  lastError : option jsstring;
  downloadId : option N
}.

(** The host capability: it acts on the browser's state. *)
Class DownloadsApi (World : Type) :=
  chrome_downloads_download : DownloadOptions → World → DownloadCallback * World.

Record DownloadResult := {
  res_url : jsstring;
  res_success : bool;
  res_downloadId : option N;
  res_error : option jsstring
}.

(** The folder name and the timestamp computed at the top of
    [handleDownloadRequest]. *)
Definition folderNameOf (assignmentName : option jsstring) : jsstring :=
  sanitizeFolderName
    (match assignmentName with
     | Some (c :: n) => c :: n
     | _ => lit "Classroom_Downloads"
     end).

Definition sessionFolderOf (assignmentName : option jsstring) (now : Date) : jsstring :=
  folderNameOf assignmentName ++ [underscore] ++ generateTimestamp now.

Section Batch.
Context {World : Type} `{!DownloadsApi World}.

(** The promise of [downloadFile]: [inr id] when it resolves,
    [inl message] when it rejects. *)
Definition downloadFile (attachment : Attachment) (folderName : jsstring)
    (w : World) : (jsstring + N) * World :=
  let sanitizedFilename :=
    sanitizeFilename (att_filename attachment) (att_url attachment) in
  let fullPath :=
    lit "Classroom/" ++ folderName ++ [slash] ++ sanitizedFilename in
  let downloadUrl := convertToDownloadUrl (att_url attachment) in
  let '(cb, w') :=
    chrome_downloads_download
      {| opt_url := downloadUrl; opt_filename := fullPath; opt_saveAs := false |} w in
  match lastError cb with
  | Some message => (inl message, w')
  | None =>
      match downloadId cb with
      | None => (inl (lit "Download failed - no download ID returned"), w')
      | Some id => (inr id, w')
      end
  end.

(** The [for ... of] loop, pushing onto [results]. *)
Fixpoint download_loop (sessionFolder : jsstring) (attachments : list Attachment)
    (results : list DownloadResult) (w : World) : list DownloadResult * World :=
  match attachments with
  | [] => (results, w)
  | attachment :: rest =>
      match downloadFile attachment sessionFolder w with
      | (inr result, w') =>
          download_loop sessionFolder rest
            (results ++ [{| res_url := att_url attachment; res_success := true;
                            res_downloadId := Some result; res_error := None |}]) w'
      | (inl message, w') =>
          download_loop sessionFolder rest
            (results ++ [{| res_url := att_url attachment; res_success := false;
                            res_downloadId := None; res_error := Some message |}]) w'
      end
  end.

Definition handleDownloadRequest (attachments : list Attachment)
    (assignmentName : option jsstring) (now : Date) (w : World)
    : list DownloadResult * World :=
  let sessionFolder := sessionFolderOf assignmentName now in
  download_loop sessionFolder attachments [] w.
End Batch.

(** ** content.js: the scanner *)

Definition VALID_EXTENSIONS : list jsstring :=
  map lit
    ["pptx"; "ppt"; "docx"; "doc"; "xlsx"; "xls";
     "pdf"; "txt"; "zip"; "rar"; "7z";
     "jpg"; "jpeg"; "png"; "gif"; "bmp";
     "mp4"; "mp3"; "wav"; "avi"; "mov"]%string.

(** Lower-casing of one code unit.  The Basic Latin and Latin-1 letters
    are mapped as [toLowerCase] maps them; other code units are left as
    they are.  No code unit outside [A-Z] lower-cases to a string ending
    in an ASCII letter of an allow-listed extension, a digit or a dot,
    so [hasValidExtension] does not depend on the rest of the table. *)
Definition lower_unit (c : N) : N :=
  if ((65 <=? c) && (c <=? 90)) ||
     ((192 <=? c) && (c <=? 222) && negb (c =? 215))
  then c + 32 else c.

Definition toLowerCase (s : jsstring) : jsstring := map lower_unit s.

Definition hasValidExtension (filename : jsstring) : bool :=
  let lower := toLowerCase filename in
  existsb (λ ext, endsWith lower (dot :: ext)) VALID_EXTENSIONS.

Definition isNavigationLink (url : jsstring) : bool :=
  if includes url (lit "/c/") && includes url (lit "/details") then false
  else if includes url (lit "/c/") && negb (includes url (lit "drive.google.com"))
          && negb (includes url (lit "docs.google.com"))
  then true
  else false.

(** The anchor elements of the page that carry an [href] attribute, as
    far as the scanner reads them. *)
Record Anchor := {
  hrefAttr : jsstring;               (* the attribute, tested by the selector *)
  href : jsstring;                   (* [link.href] *)
  textContent : jsstring;            (* [link.textContent] *)
  cardTitle : option jsstring;       (* text of the title element of the
                                        closest card, when both exist *)
  titleAttr : option jsstring;       (* [getAttribute("title")] *)
  ariaLabel : option jsstring        (* [getAttribute("aria-label")] *)
}.

(** [s.split(/[\n\r]/)[0]] *)
Fixpoint first_line (s : jsstring) : jsstring :=
  match s with
  | [] => []
  | c :: s' => if (c =? 10) || (c =? 13) then [] else c :: first_line s'
  end.

(** Canonicalisation of the [i] flag.  The patterns of this file are
    ASCII, and a code unit outside ASCII never canonicalises to an ASCII
    one, so only the ASCII letters need folding. *)
Definition canon (c : N) : N :=
  if (97 <=? c) && (c <=? 122) then c - 32 else c.

Fixpoint strip_prefix_ci (p s : jsstring) : option jsstring :=
  match p, s with
  | [], _ => Some s
  | a :: p', b :: s' => if canon a =? canon b then strip_prefix_ci p' s' else None
  | _ :: _, [] => None
  end.

(** [/pat.*$/i] at the head of [s]. *)
Definition subtitle_here (pat s : jsstring) : bool :=
  match strip_prefix_ci pat s with
  | Some rest => forallb (λ c, negb (is_line_terminator c)) rest
  | None => false
  end.

(** [s.replace(/pat.*$/i, "")] *)
Fixpoint cut_subtitle (pat s : jsstring) : jsstring :=
  if subtitle_here pat s then []
  else match s with
       | [] => []
       | c :: s' => c :: cut_subtitle pat s'
       end.

(** The alternatives of the extension group, in the order in which the
    backtracking matcher tries them (an optional letter is tried
    first). *)
Definition EXT_ALTERNATIVES : list jsstring :=
  map lit
    ["pptx"; "ppt"; "docx"; "doc"; "xlsx"; "xls"; "pdf"; "txt"; "zip";
     "rar"; "7z"; "jpeg"; "jpg"; "png"; "gif"; "bmp"; "mp3"; "mp4";
     "wav"; "avi"; "mov"]%string.

Fixpoint match_alternative (alts : list jsstring) (s : jsstring) : option jsstring :=
  match alts with
  | [] => None
  | alt :: alts' =>
      match strip_prefix_ci alt s with
      | Some _ => Some (take (length alt) s)
      | None => match_alternative alts' s
      end
  end.

(** [s.match(/^(.+?\.(pptx?|docx?|...))/i)], capture group 1: the lazy
    [.+?] takes the fewest characters. *)
Fixpoint ext_cut (s : jsstring) : option jsstring :=
  match s with
  | [] => None
  | c :: s' =>
      if is_line_terminator c then None
      else
        let here :=
          match s' with
          | d :: s'' =>
              if d =? dot
              then option_map (λ m, c :: d :: m) (match_alternative EXT_ALTERNATIVES s'')
              else None
          | [] => None
          end in
        match here with
        | Some m => Some m
        | None => option_map (cons c) (ext_cut s')
        end
  end.

Definition too_short (s : jsstring) : bool := Nat.ltb (length s) 2.

Definition attr_or_empty (a : option jsstring) : jsstring :=
  match a with Some s => s | None => [] end.

Definition extractFilename (link : Anchor) : jsstring :=
  (* Method 1 *)
  let filename := trim (first_line (textContent link)) in
  let filename :=
    trim
      (cut_subtitle (lit "Google Slides")
      (cut_subtitle (lit "Google Sheets")
      (cut_subtitle (lit "Google Docs")
      (cut_subtitle (lit "Microsoft Excel")
      (cut_subtitle (lit "Microsoft Word")
      (cut_subtitle (lit "Microsoft PowerPoint") filename)))))) in
  let filename :=
    match ext_cut filename with Some m => m | None => filename end in
  (* Method 2 *)
  let filename :=
    if too_short filename then
      match cardTitle link with
      | Some t => first_line (trim t)
      | None => filename
      end
    else filename in
  (* Method 3 *)
  let filename :=
    if too_short filename then
      trim (first_line
              (or_default (attr_or_empty (titleAttr link))
                          (attr_or_empty (ariaLabel link))))
    else filename in
  let filename := trim (collapse_spaces filename) in
  if too_short filename then lit "unknown_file" else filename.

(** The state of the [forEach] of [scanForFiles]. *)
Record ScanState := {
  files : list Attachment;
  seenUrls : gset (list N)
}.

Definition scan_link (st : ScanState) (link : Anchor) : ScanState :=
  let url := href link in
  if match url with [] => true | _ => false end
     || bool_decide (url ∈ seenUrls st) then st
  else if isNavigationLink url then st
  else
    let filename := extractFilename link in
    if negb (hasValidExtension filename) then st
    else {| files := files st ++ [{| att_url := url; att_filename := filename |}];
            seenUrls := {[url]} ∪ seenUrls st |}.

(** The selector [a[href*=drive.google.com], a[href*=docs.google.com]]
    on one anchor. *)
Definition matches_selector (a : Anchor) : bool :=
  includes (hrefAttr a) (lit "drive.google.com")
  || includes (hrefAttr a) (lit "docs.google.com").

(** [document.querySelectorAll(...)], in document order. *)
Definition querySelectorAll_links (document : list Anchor) : list Anchor :=
  filter (λ a, matches_selector a = true) document.

Definition scanForFiles (document : list Anchor) : list Attachment :=
  let links := querySelectorAll_links document in
  files (fold_left scan_link links {| files := []; seenUrls := ∅ |}).

(** * Vocabulary of the specification *)

(** ** Patterns of the resolver *)

(** [url] reads [pre ++ l ++ id ++ post], where [id] is a maximal
    non-empty run free of [stop]: one way for [/l([^stop]+)/] to match. *)
Definition MatchAt (l : jsstring) (stop : N) (url pre id post : jsstring) : Prop :=
  url = pre ++ l ++ id ++ post ∧ id ≠ [] ∧ (stop ∉ id) ∧
  (post = [] ∨ ∃ post', post = stop :: post').

(** [id] is the identifier carried by the leftmost match. *)
Definition FirstMatch (l : jsstring) (stop : N) (url id : jsstring) : Prop :=
  ∃ pre post, MatchAt l stop url pre id post ∧
    ∀ pre' id' post', MatchAt l stop url pre' id' post' →
      (length pre ≤ length pre')%nat.

Definition NoMatch (l : jsstring) (stop : N) (url : jsstring) : Prop :=
  ∀ pre id post, ¬ MatchAt l stop url pre id post.

Definition DIRECT_EXPORT : jsstring :=
  lit "https://drive.google.com/uc?export=download&id=".

(** ** Timestamps and folder names *)

(** The timestamp layout [YYYY-MM-DD_HH-MM-SS], digit by digit. *)
Definition digit (n : Z) : N := 48 + Z.to_N (n mod 10).

Definition two_digits (n : Z) : jsstring :=
  [digit (n / 10); digit n].

Definition four_digits (n : Z) : jsstring :=
  [digit (n / 1000); digit (n / 100); digit (n / 10); digit n].

Definition timestamp_layout (now : Date) : jsstring :=
  four_digits (getFullYear now) ++ [dash] ++
  two_digits (getMonth now + 1) ++ [dash] ++
  two_digits (getDate now) ++ [underscore] ++
  two_digits (getHours now) ++ [dash] ++
  two_digits (getMinutes now) ++ [dash] ++
  two_digits (getSeconds now).

(** The ranges of the getters of a [Date] whose year has four digits. *)
Definition calendar_date (now : Date) : Prop :=
  (1000 ≤ getFullYear now ≤ 9999)%Z ∧ (0 ≤ getMonth now ≤ 11)%Z ∧
  (1 ≤ getDate now ≤ 31)%Z ∧ (0 ≤ getHours now ≤ 23)%Z ∧
  (0 ≤ getMinutes now ≤ 59)%Z ∧ (0 ≤ getSeconds now ≤ 59)%Z.

(** A label made of refused characters and white space only. *)
Definition only_illegal_or_space (label : jsstring) : Prop :=
  Forall (λ c, is_illegal c || is_space c = true) label.

(** ** Sanitized names *)

(** Properties of sanitized strings: the first character is outside the
    class [p]; no refused character occurs; white space occurs only as
    single spaces ([prev] says that a space precedes). *)
Definition head_ok (p : N → bool) (s : jsstring) : Prop :=
  match s with [] => True | c :: _ => p c = false end.

Definition legal (s : jsstring) : Prop :=
  Forall (λ c, is_illegal c = false) s.

Fixpoint tidy (prev : bool) (s : jsstring) : bool :=
  match s with
  | [] => true
  | c :: s' =>
      if is_space c then (c =? 32) && negb prev && tidy true s'
      else tidy false s'
  end.

(** The last character of [s] belongs to the class [p]. *)
Definition ends_in (p : N → bool) (s : jsstring) : Prop :=
  ∃ r c, s = r ++ [c] ∧ p c = true.

(** The name part of a file name: the name without its recognised
    extension (a dot and two to five letters or digits), when it has
    one. *)
Definition name_part (filename : jsstring) : jsstring :=
  if has_extension filename then
    match ext_match filename with
    | Some ext => slice_off (length ext) filename
    | None => filename
    end
  else filename.

(** The extension [sanitizeFilename] takes from the URL when the file
    name has none (the [else] branch of its first test). *)
Definition impliedExtension (url : jsstring) : jsstring :=
  if includes url (lit "docs.google.com/document") then lit ".docx"
  else if includes url (lit "docs.google.com/spreadsheets") then lit ".xlsx"
  else if includes url (lit "docs.google.com/presentation") then lit ".pptx"
  else [].

(** A recognised extension: a dot and two to five letters or digits. *)
Definition extension_tail (x : jsstring) : Prop :=
  forallb is_alnum x = true ∧ (2 ≤ length x ≤ 5)%nat.

(** What the sanitized name part of a file name always satisfies. *)
Definition clean_stem (y : jsstring) : Prop :=
  legal y ∧ tidy false y = true ∧ head_ok is_junk y ∧
  (length y ≤ 200)%nat ∧ y ≠ [].

(** ** The batch and its download manager *)

(** The request [downloadFile] hands to the download manager. *)
Definition request_for (sessionFolder : jsstring) (a : Attachment) : DownloadOptions :=
  {| opt_url := convertToDownloadUrl (att_url a);
     opt_filename :=
       lit "Classroom/" ++ sessionFolder ++ [slash] ++
       sanitizeFilename (att_filename a) (att_url a);
     opt_saveAs := false |}.

(** What the download manager answers when it is called once per record,
    in order. *)
Fixpoint manager_replies {World : Type} `{!DownloadsApi World}
    (sessionFolder : jsstring) (attachments : list Attachment) (w : World)
    : list DownloadCallback :=
  match attachments with
  | [] => []
  | a :: rest =>
      let '(cb, w') := chrome_downloads_download (request_for sessionFolder a) w in
      cb :: manager_replies sessionFolder rest w'
  end.

(** The result recorded for one record, given the manager's answer. *)
Definition result_of (a : Attachment) (cb : DownloadCallback) : DownloadResult :=
  match lastError cb, downloadId cb with
  | Some message, _ =>
      {| res_url := att_url a; res_success := false;
         res_downloadId := None; res_error := Some message |}
  | None, None =>
      {| res_url := att_url a; res_success := false; res_downloadId := None;
         res_error := Some (lit "Download failed - no download ID returned") |}
  | None, Some id =>
      {| res_url := att_url a; res_success := true;
         res_downloadId := Some id; res_error := None |}
  end.

(** A download manager for examples: its state counts the calls, and the
    second call reports an error. *)
Definition second_call_fails : DownloadsApi nat :=
  λ _ n,
    (if Nat.eqb n 1
     then {| lastError := Some (lit "Network error"); downloadId := None |}
     else {| lastError := None; downloadId := Some (N.of_nat n + 100) |},
     S n).

Definition three_records : list Attachment :=
  [ {| att_url := lit "https://drive.google.com/file/d/A1/view";
       att_filename := lit "Week 1.pdf" |};
    {| att_url := lit "https://docs.google.com/document/d/B2/edit";
       att_filename := lit "Essay" |};
    {| att_url := lit "https://drive.google.com/open?id=C3";
       att_filename := lit "Slides?.pptx" |} ].

Definition noon : Date :=
  {| getFullYear := 2024; getMonth := 2; getDate := 7;
     getHours := 12; getMinutes := 0; getSeconds := 0 |}.

(** ** Scanned pages *)

(** [x] is [y] up to the case of an ASCII letter, [y] being the
    lower-case one. *)
Definition same_letter (x y : N) : Prop :=
  x = y ∨ (65 ≤ x ≤ 90 ∧ y = x + 32).

(** The file name ends, case-insensitively, in a dot and an extension of
    the allow-list. *)
Definition has_allowed_extension (filename : jsstring) : Prop :=
  ∃ stem suffix ext,
    filename = stem ++ dot :: suffix ∧ ext ∈ VALID_EXTENSIONS ∧
    Forall2 same_letter suffix ext.

(** The anchor passes every test of the scanner but the one on URLs
    already seen. *)
Definition admissible (a : Anchor) : Prop :=
  matches_selector a = true ∧ href a ≠ [] ∧
  isNavigationLink (href a) = false ∧
  hasValidExtension (extractFilename a) = true.

(** The invariant of the scan: the set of seen URLs is the set of the URLs
    emitted so far, which are distinct, and every emitted file name has
    passed the extension test. *)
Definition scan_invariant (st : ScanState) : Prop :=
  (∀ u, u ∈ seenUrls st ↔ u ∈ map att_url (files st)) ∧
  NoDup (map att_url (files st)) ∧
  Forall (λ r, hasValidExtension (att_filename r) = true) (files st).

Definition two_links_one_file : list Anchor :=
  [ {| hrefAttr := lit "https://drive.google.com/file/d/A1/view";
       href := lit "https://drive.google.com/file/d/A1/view";
       textContent := lit "Week 1.pdf"; cardTitle := None;
       titleAttr := None; ariaLabel := None |};
    {| hrefAttr := lit "https://drive.google.com/file/d/A1/view";
       href := lit "https://drive.google.com/file/d/A1/view";
       textContent := lit "Week 1.pdf" ++ [10] ++ lit "PDF"; cardTitle := None;
       titleAttr := Some (lit "Week 1.pdf"); ariaLabel := None |} ].

Definition setup_exe_link : Anchor :=
  {| hrefAttr := lit "https://drive.google.com/file/d/E5/view";
     href := lit "https://drive.google.com/file/d/E5/view";
     textContent := lit "setup.exe"; cardTitle := None;
     titleAttr := None; ariaLabel := None |}.

(** ** content.js: the assignment name *)

(** The page as [getAssignmentName] reads it: for a selector, the text
    of the first element it matches, and the title of the document. *)
Record Page := {
  querySelector_text : jsstring → option jsstring;
  document_title : jsstring
}.

Definition titleSelectors : list jsstring :=
  map lit [".YVvGBb"; ".KPJZse"; ".Qcpryb"; ".p8Lhse"; "h1"]%string.

(** The [for ... of] loop over the selectors: the first element whose
    trimmed text is not empty gives the name. *)
Fixpoint first_title (page : Page) (selectors : list jsstring) : option jsstring :=
  match selectors with
  | [] => None
  | selector :: rest =>
      match querySelector_text page selector with
      | Some text =>
          match trim text with
          | [] => first_title page rest
          | name => Some name
          end
      | None => first_title page rest
      end
  end.

(** [s.replace(/pat$/i, "")] for a literal [pat]. *)
Fixpoint cut_suffix_ci (pat s : jsstring) : jsstring :=
  match strip_prefix_ci pat s with
  | Some [] => []
  | _ =>
      match s with
      | [] => []
      | c :: s' => c :: cut_suffix_ci pat s'
      end
  end.

(** [s.split(sep)[0]] *)
Fixpoint before_first (sep s : jsstring) : jsstring :=
  if startsWith s sep then []
  else match s with
       | [] => []
       | c :: s' => c :: before_first sep s'
       end.

Definition getAssignmentName (page : Page) : jsstring :=
  match first_title page titleSelectors with
  | Some name => name
  | None =>
      let pageTitle :=
        trim (cut_suffix_ci (lit " - Google Classroom") (document_title page)) in
      let pageTitle :=
        if includes pageTitle (lit " - ")
        then trim (before_first (lit " - ") pageTitle)
        else pageTitle in
      or_default pageTitle (lit "Classroom_Download")
  end.

(** ** popup.js: the file list *)

Module Popup.

Definition VALID_EXTENSIONS : list jsstring :=
  map lit
    [".pptx"; ".ppt"; ".docx"; ".doc"; ".xlsx"; ".xls";
     ".pdf"; ".txt"; ".zip"; ".rar"; ".7z";
     ".jpg"; ".jpeg"; ".png"; ".gif"; ".bmp";
     ".mp4"; ".mp3"; ".wav"; ".avi"; ".mov"]%string.



(** The capture group of [/\.([a-zA-Z0-9]+)$/] is made of ASCII letters
    and digits, on which [toLowerCase] is exact. *)
Definition getExtension (filename : jsstring) : jsstring :=
  match ext_match filename with
  | Some (_ :: group) => toLowerCase group
  | _ => lit "file"
  end.

(** [array.includes(ext)] *)
Definition one_of (ext : jsstring) (array : list jsstring) : bool :=
  existsb (jseq ext) array.

Definition getIconClass (ext : jsstring) : jsstring :=
  if one_of ext (map lit ["ppt"; "pptx"]%string) then lit "pptx"
  else if one_of ext (map lit ["doc"; "docx"]%string) then lit "docx"
  else if one_of ext (map lit ["xls"; "xlsx"]%string) then lit "xlsx"
  else if jseq ext (lit "pdf") then lit "pdf"
  else if one_of ext (map lit ["jpg"; "jpeg"; "png"; "gif"; "bmp"]%string) then lit "img"
  else if one_of ext (map lit ["mp4"; "avi"; "mov"]%string) then lit "video"
  else if one_of ext (map lit ["mp3"; "wav"]%string) then lit "audio"
  else if one_of ext (map lit ["zip"; "rar"; "7z"]%string) then lit "archive"
  else lit "other".

(** [response.results.filter(r => r.success).length], the count shown
    by [downloadSelected]. *)
Definition successCount (results : list DownloadResult) : nat :=
  length (filter (λ r, res_success r = true) results).

End Popup.

(** * Further vocabulary *)

(** The record an anchor gives when it is emitted. *)
Definition record_of (a : Anchor) : Attachment :=
  {| att_url := href a; att_filename := extractFilename a |}.

(** The link text after the clean-up of the first method of
    [extractFilename], before the cut at the extension. *)
Definition method1_text (link : Anchor) : jsstring :=
  trim
    (cut_subtitle (lit "Google Slides")
    (cut_subtitle (lit "Google Sheets")
    (cut_subtitle (lit "Google Docs")
    (cut_subtitle (lit "Microsoft Excel")
    (cut_subtitle (lit "Microsoft Word")
    (cut_subtitle (lit "Microsoft PowerPoint")
       (trim (first_line (textContent link))))))))).

(** A text made of white space only, or an absent one. *)
Definition blank (s : jsstring) : Prop := Forall (λ c, is_space c = true) s.

Definition blank_or_absent (a : option jsstring) : Prop :=
  match a with Some s => blank s | None => True end.

(** No white space but single spaces. *)
Definition plain_spaces (s : jsstring) : Prop :=
  Forall (λ c, is_space c = true → c = 32) s.

(** The world after the manager has served the requests in order. *)
Definition serve_all {World : Type} `{!DownloadsApi World}
    (requests : list DownloadOptions) (w : World) : World :=
  fold_left (λ w request, (chrome_downloads_download request w).2) requests w.

#[global] Instance admissible_dec (a : Anchor) : Decision (admissible a).
Proof. unfold admissible. apply _. Defined.

(** The manager's answer is a success: no error and an identifier. *)
Definition answered_ok (cb : DownloadCallback) : bool :=
  match lastError cb, downloadId cb with
  | None, Some _ => true
  | _, _ => false
  end.

(** * Properties *)

(** ** Strings and patterns *)

Lemma jseq_true s t : jseq s t = true → s = t.
Proof. apply bool_decide_eq_true_1. Qed.

Lemma strip_prefix_Some p s r :
  strip_prefix p s = Some r ↔ s = p ++ r.
Proof.
  revert s. induction p as [|a p IH]; intros s; simpl.
  - split; intros; simplify_eq; done.
  - destruct s as [|b s]; [split; intros; simplify_eq|].
    destruct (N.eqb_spec a b) as [->|Hne].
    + rewrite IH. split; intros; simplify_eq; done.
    + split; intros; simplify_eq.
Qed.

Lemma startsWith_true s p :
  startsWith s p = true ↔ ∃ r, s = p ++ r.
Proof.
  unfold startsWith. destruct (strip_prefix p s) as [r|] eqn:E.
  - apply strip_prefix_Some in E. split; eauto.
  - split; [done|]. intros [r Hr]. apply strip_prefix_Some in Hr. congruence.
Qed.

Lemma includes_Contains s t :
  includes s t = true ↔ Contains s t.
Proof.
  unfold Contains. induction s as [|c s IH]; simpl.
  - rewrite orb_false_r, startsWith_true. split.
    + intros [r Hr]. by exists [], r.
    + intros ([|? pre] & post & H); simplify_eq/=; eauto.
  - rewrite orb_true_iff, startsWith_true, IH. split.
    + intros [[r Hr]|(pre & post & H)].
      * by exists [], r.
      * exists (c :: pre), post. by rewrite H.
    + intros ([|? pre] & post & H); simplify_eq/=; eauto.
Qed.

Lemma includes_false s t :
  includes s t = false ↔ ¬ Contains s t.
Proof.
  rewrite <- includes_Contains. destruct (includes s t); split; congruence.
Qed.

Lemma take_until_app stop s :
  ∃ post, s = take_until stop s ++ post ∧ (stop ∉ take_until stop s) ∧
          (post = [] ∨ ∃ post', post = stop :: post').
Proof.
  induction s as [|c s (post & Hs & Hni & Hp)]; simpl.
  - exists []. split_and!; [done|apply not_elem_of_nil|by left].
  - destruct (N.eqb_spec c stop) as [->|Hne].
    + exists (stop :: s). split_and!; [done|apply not_elem_of_nil|right; eauto].
    + exists post. split_and!; [simpl; congruence| |done].
      apply not_elem_of_cons. split; [congruence|done].
Qed.

Lemma take_until_unique stop id post :
  stop ∉ id → (post = [] ∨ ∃ post', post = stop :: post') →
  take_until stop (id ++ post) = id.
Proof.
  intros Hni Hp. induction id as [|c id IH]; simpl.
  - destruct Hp as [->|[post' ->]]; simpl; [done|]. by rewrite N.eqb_refl.
  - apply not_elem_of_cons in Hni as [Hc Hni].
    destruct (N.eqb_spec c stop) as [->|Hne]; [done|].
    f_equal. by apply IH.
Qed.

Lemma match_here_Some l stop s id :
  match_here l stop s = Some id ↔ ∃ post, MatchAt l stop s [] id post.
Proof.
  unfold match_here, MatchAt. split.
  - destruct (strip_prefix l s) as [rest|] eqn:E; [|done].
    apply strip_prefix_Some in E.
    destruct (take_until_app stop rest) as (post & Hr & Hni & Hp).
    destruct (take_until stop rest) as [|c r] eqn:Et; [done|].
    intros [= <-]. exists post. simpl in *. split_and!; [congruence|done..].
  - intros (post & Hs & Hne & Hni & Hp). simpl in Hs.
    apply strip_prefix_Some in Hs. rewrite Hs.
    rewrite take_until_unique by done. by destruct id.
Qed.

Lemma regex_capture_Some l stop s id :
  regex_capture l stop s = Some id ↔ FirstMatch l stop s id.
Proof.
  unfold FirstMatch. revert id. induction s as [|c s IH]; intros id; simpl.
  - destruct (match_here l stop []) as [id0|] eqn:E.
    + apply match_here_Some in E as [post0 H0]. split.
      * intros [= <-]. exists [], post0. split; [done|]. intros; simpl; lia.
      * intros (pre & post & H & Hmin). specialize (Hmin _ _ _ H0).
        destruct pre; [|simpl in Hmin; lia].
        f_equal. symmetry.
        assert (match_here l stop [] = Some id) as Hid
          by (apply match_here_Some; eauto).
        assert (match_here l stop [] = Some id0) as Hid0
          by (apply match_here_Some; eauto).
        congruence.
    + split; [done|]. intros (pre & post & H & _).
      destruct H as (Hs & ?). destruct pre; [|done].
      assert (match_here l stop [] = Some id) as Hid
        by (apply match_here_Some; exists post; split; done).
      congruence.
  - destruct (match_here l stop (c :: s)) as [id0|] eqn:E.
    + pose proof E as E'. apply match_here_Some in E' as [post0 H0]. split.
      * intros [= <-]. exists [], post0. split; [done|]. intros; simpl; lia.
      * intros (pre & post & H & Hmin). specialize (Hmin _ _ _ H0).
        destruct pre; [|simpl in Hmin; lia].
        assert (match_here l stop (c :: s) = Some id) as Hid
          by (apply match_here_Some; eauto).
        congruence.
    + rewrite IH. split.
      * intros (pre & post & (Hs & Hrest) & Hmin).
        exists (c :: pre), post. split.
        { split; [simpl; congruence|done]. }
        intros pre' id' post' H'. destruct pre' as [|c' pre'].
        { assert (match_here l stop (c :: s) = Some id') as Hid
            by (apply match_here_Some; eauto). congruence. }
        destruct H' as (Hs' & Hrest'). simplify_eq/=.
        apply le_n_S, (Hmin pre' id' post'). split; done.
      * intros (pre & post & H & Hmin). destruct pre as [|c' pre].
        { assert (match_here l stop (c :: s) = Some id) as Hid
            by (apply match_here_Some; eauto). congruence. }
        destruct H as (Hs & Hrest). simplify_eq/=.
        exists pre, post. split; [split; done|].
        intros pre' id' post' (Hs' & Hrest').
        assert (length (c' :: pre) ≤ length (c' :: pre'))%nat as Hle; [|simpl in Hle; lia].
        apply (Hmin (c' :: pre') id' post'). split; [simpl; congruence|done].
Qed.

Lemma regex_capture_None l stop s :
  regex_capture l stop s = None ↔ NoMatch l stop s.
Proof.
  unfold NoMatch. induction s as [|c s IH]; simpl.
  - destruct (match_here l stop []) as [id0|] eqn:E.
    + apply match_here_Some in E as [post0 H0]. split; [done|].
      intros H. by destruct (H _ _ _ H0).
    + split; [|done]. intros _ pre id post H.
      destruct pre; [|destruct H as [? _]; done].
      assert (match_here l stop [] = Some id) as Hid
        by (apply match_here_Some; eauto). congruence.
  - destruct (match_here l stop (c :: s)) as [id0|] eqn:E.
    + apply match_here_Some in E as [post0 H0]. split; [done|].
      intros H. by destruct (H _ _ _ H0).
    + rewrite IH. split.
      * intros H pre id post H'. destruct pre as [|c' pre].
        { assert (match_here l stop (c :: s) = Some id) as Hid
            by (apply match_here_Some; eauto). congruence. }
        destruct H' as (Hs' & Hrest'). simplify_eq/=.
        apply (H pre id post). split; done.
      * intros H pre id post (Hs & Hrest).
        apply (H (c :: pre) id post). split; [simpl; congruence|done].
Qed.

(** ** The resolver *)

(** C1. [convertToDownloadUrl] is a first-match-wins case analysis: the
    file-view pattern, then the open-link pattern, both giving the direct
    export link for the identifier they carry; then the document,
    spreadsheet and presentation patterns, giving the export endpoint of
    that identifier in docx, xlsx and pptx; a URL that matches none of
    the five patterns is returned unchanged. *)
Theorem convertToDownloadUrl_cases (url : jsstring) :
  (∀ id, FirstMatch re_drive_file slash url id →
     convertToDownloadUrl url = DIRECT_EXPORT ++ id) ∧
  (∀ id, NoMatch re_drive_file slash url →
     FirstMatch re_drive_open amp url id →
     convertToDownloadUrl url = DIRECT_EXPORT ++ id) ∧
  (∀ id, NoMatch re_drive_file slash url → NoMatch re_drive_open amp url →
     FirstMatch re_docs slash url id →
     convertToDownloadUrl url =
       lit "https://docs.google.com/document/d/" ++ id ++ lit "/export?format=docx") ∧
  (∀ id, NoMatch re_drive_file slash url → NoMatch re_drive_open amp url →
     NoMatch re_docs slash url →
     FirstMatch re_sheets slash url id →
     convertToDownloadUrl url =
       lit "https://docs.google.com/spreadsheets/d/" ++ id ++ lit "/export?format=xlsx") ∧
  (∀ id, NoMatch re_drive_file slash url → NoMatch re_drive_open amp url →
     NoMatch re_docs slash url → NoMatch re_sheets slash url →
     FirstMatch re_slides slash url id →
     convertToDownloadUrl url =
       lit "https://docs.google.com/presentation/d/" ++ id ++ lit "/export/pptx") ∧
  (NoMatch re_drive_file slash url → NoMatch re_drive_open amp url →
     NoMatch re_docs slash url → NoMatch re_sheets slash url →
     NoMatch re_slides slash url →
     convertToDownloadUrl url = url).
Proof.
  unfold convertToDownloadUrl.
  split_and!; intros;
    repeat match goal with
    | H : FirstMatch _ _ _ _ |- _ => apply regex_capture_Some in H; rewrite H
    | H : NoMatch _ _ _ |- _ => apply regex_capture_None in H; rewrite H
    end; reflexivity.
Qed.

Lemma convertToDownloadUrl_cases_witness :
  (FirstMatch re_drive_file slash
     (lit "https://drive.google.com/file/d/ABC123/view") (lit "ABC123") ∧
   convertToDownloadUrl (lit "https://drive.google.com/file/d/ABC123/view")
   = lit "https://drive.google.com/uc?export=download&id=ABC123") ∧
  (FirstMatch re_sheets slash
     (lit "https://docs.google.com/spreadsheets/d/XYZ/edit") (lit "XYZ") ∧
   convertToDownloadUrl (lit "https://docs.google.com/spreadsheets/d/XYZ/edit")
   = lit "https://docs.google.com/spreadsheets/d/XYZ/export?format=xlsx") ∧
  (NoMatch re_slides slash (lit "https://example.org/a.pdf") ∧
   convertToDownloadUrl (lit "https://example.org/a.pdf")
   = lit "https://example.org/a.pdf").
Proof.
  assert (∀ l stop s id, regex_capture l stop s = Some id → FirstMatch l stop s id)
    as HS by (intros; by apply regex_capture_Some).
  assert (∀ l stop s, regex_capture l stop s = None → NoMatch l stop s)
    as HN by (intros; by apply regex_capture_None).
  split_and!.
  - apply HS. vm_compute. reflexivity.
  - apply (proj1 (convertToDownloadUrl_cases _) (lit "ABC123")).
    apply HS. vm_compute. reflexivity.
  - apply HS. vm_compute. reflexivity.
  - apply (proj1 (proj2 (proj2 (proj2 (convertToDownloadUrl_cases _)))) (lit "XYZ"));
      first [ apply HN; vm_compute; reflexivity | apply HS; vm_compute; reflexivity ].
  - apply HN. vm_compute. reflexivity.
  - apply (proj2 (proj2 (proj2 (proj2 (proj2 (convertToDownloadUrl_cases _))))));
      apply HN; vm_compute; reflexivity.
Defined.

(** ** The navigation test *)

(** C7. The detail-page carve-out comes first: a URL containing both
    [/c/] and [/details] is never a navigation link.  Outside the
    carve-out, a URL is a navigation link exactly when it contains [/c/]
    and neither hosting domain. *)
Theorem isNavigationLink_spec (url : jsstring) :
  (Contains url (lit "/c/") → Contains url (lit "/details") →
     isNavigationLink url = false) ∧
  (¬ (Contains url (lit "/c/") ∧ Contains url (lit "/details")) →
     (isNavigationLink url = true ↔
        Contains url (lit "/c/") ∧
        ¬ Contains url (lit "drive.google.com") ∧
        ¬ Contains url (lit "docs.google.com"))).
Proof.
  unfold isNavigationLink. split.
  - intros Hc Hd. apply includes_Contains in Hc, Hd. by rewrite Hc, Hd.
  - intros Hcarve.
    rewrite <- !includes_false, <- !includes_Contains in *.
    destruct (includes url (lit "/c/")), (includes url (lit "/details"));
      simpl; try (exfalso; apply Hcarve; done);
      destruct (includes url (lit "drive.google.com")),
               (includes url (lit "docs.google.com")); simpl;
      split; intros; destruct_and?; done.
Qed.

Lemma isNavigationLink_spec_witness :
  isNavigationLink (lit "https://classroom.google.com/c/123/details") = false ∧
  (isNavigationLink (lit "https://classroom.google.com/c/123/t/all") = true ↔
     Contains (lit "https://classroom.google.com/c/123/t/all") (lit "/c/") ∧
     ¬ Contains (lit "https://classroom.google.com/c/123/t/all") (lit "drive.google.com") ∧
     ¬ Contains (lit "https://classroom.google.com/c/123/t/all") (lit "docs.google.com")).
Proof.
  split.
  - apply (proj1 (isNavigationLink_spec _));
      apply includes_Contains; vm_compute; reflexivity.
  - apply (proj2 (isNavigationLink_spec _)).
    intros [_ Hd]. apply includes_Contains in Hd. vm_compute in Hd. discriminate.
Defined.

(** ** File names: the worked example *)

(** C2, as the code has it: the question mark becomes an underscore, which
    then stands at the end of the name part and is trimmed with the
    trailing dots, underscores and white space; the extension is kept. *)
Theorem sanitizeFilename_my_file (url : jsstring) :
  sanitizeFilename (lit "My File?.pdf") url = lit "My File.pdf".
Proof. reflexivity. Qed.

(** C2, as stated, fails: the result is not ["My File_.pdf"]. *)
Lemma sanitizeFilename_my_file_not_underscore :
  sanitizeFilename (lit "My File?.pdf") [] ≠ lit "My File_.pdf".
Proof. vm_compute. discriminate. Qed.

(** ** The session folder *)

Lemma forallb_range (P : Z → bool) (lo hi n : Z) :
  forallb (λ k, P (lo + Z.of_nat k)%Z) (seq 0 (Z.to_nat (hi - lo))) = true →
  (lo ≤ n < hi)%Z → P n = true.
Proof.
  intros Hall Hn. rewrite forallb_forall in Hall.
  specialize (Hall (Z.to_nat (n - lo))).
  replace (lo + Z.of_nat (Z.to_nat (n - lo)))%Z with n in Hall by lia.
  apply Hall, in_seq. lia.
Qed.

Lemma padStart_two_digits (n : Z) :
  (0 ≤ n < 100)%Z → padStart 2 zero_char (String_of_int n) = two_digits n.
Proof.
  intros Hn.
  apply jseq_true,
    (forallb_range
       (λ n, jseq (padStart 2 zero_char (String_of_int n)) (two_digits n))
       0 100); [vm_compute; reflexivity | lia].
Qed.

Lemma String_of_int_four_digits (n : Z) :
  (1000 ≤ n ≤ 9999)%Z → String_of_int n = four_digits n.
Proof.
  intros Hn.
  apply jseq_true,
    (forallb_range
       (λ n, jseq (String_of_int n) (four_digits n))
       1000 10000); [vm_compute; reflexivity | lia].
Qed.

Lemma generateTimestamp_layout (now : Date) :
  calendar_date now → generateTimestamp now = timestamp_layout now.
Proof.
  intros (Hy & Hm & Hd & Hh & Hmi & Hs).
  unfold generateTimestamp, timestamp_layout.
  rewrite String_of_int_four_digits by done.
  rewrite !padStart_two_digits by lia. reflexivity.
Qed.

(** C9. For the label ["Homework #1: A/B"] the session folder is
    ["Homework #1 A B_"] followed by the timestamp of the clock; the
    timestamp of a calendar date is laid out [YYYY-MM-DD_HH-MM-SS], every
    field after the year on two digits. *)
Theorem sessionFolder_homework (now : Date) :
  sessionFolderOf (Some (lit "Homework #1: A/B")) now
  = lit "Homework #1 A B_" ++ generateTimestamp now ∧
  (calendar_date now → generateTimestamp now = timestamp_layout now).
Proof.
  split; [reflexivity | apply generateTimestamp_layout].
Qed.

Lemma sessionFolder_homework_witness :
  sessionFolderOf (Some (lit "Homework #1: A/B"))
    {| getFullYear := 2024; getMonth := 2; getDate := 7;
       getHours := 9; getMinutes := 5; getSeconds := 0 |}
  = lit "Homework #1 A B_2024-03-07_09-05-00".
Proof.
  pose proof (sessionFolder_homework
    {| getFullYear := 2024; getMonth := 2; getDate := 7;
       getHours := 9; getMinutes := 5; getSeconds := 0 |}) as [Hf Ht].
  rewrite Hf, Ht.
  - reflexivity.
  - unfold calendar_date; simpl; lia.
Defined.

(** ** Trimming, collapsing, replacing *)

Section Classes.
Variable p : N → bool.

Lemma drop_while_split s :
  ∃ pre, s = pre ++ drop_while p s ∧ Forall (λ c, p c = true) pre.
Proof.
  induction s as [|c s (pre & Hs & Hpre)]; simpl.
  - by exists [].
  - destruct (p c) eqn:Hc.
    + exists (c :: pre). split; [simpl; congruence|by constructor].
    + by exists [].
Qed.

Lemma drop_while_head s : head_ok p (drop_while p s).
Proof.
  induction s as [|c s IH]; simpl; [done|].
  destruct (p c) eqn:Hc; done.
Qed.

Lemma drop_while_id s : head_ok p s → drop_while p s = s.
Proof. destruct s as [|c s]; simpl; [done|]. by intros ->. Qed.

Lemma drop_while_all s : Forall (λ c, p c = true) s → drop_while p s = [].
Proof. induction 1 as [|c s Hc _ IH]; simpl; [done|]. by rewrite Hc. Qed.

Lemma head_ok_prefix s t : head_ok p (s ++ t) → head_ok p s.
Proof. by destruct s. Qed.

(** What [strip_class] removes. *)
Lemma strip_class_split s :
  ∃ pre post, s = pre ++ strip_class p s ++ post ∧
    Forall (λ c, p c = true) pre ∧ Forall (λ c, p c = true) post.
Proof.
  unfold strip_class.
  destruct (drop_while_split s) as (pre & Hs & Hpre).
  destruct (drop_while_split (rev (drop_while p s))) as (pre2 & Hr & Hpre2).
  exists pre, (rev pre2). split_and!; [|done|by apply Forall_rev].
  rewrite <- rev_app_distr, <- Hr, rev_involutive. done.
Qed.

Lemma strip_class_head s : head_ok p (strip_class p s).
Proof.
  unfold strip_class.
  destruct (drop_while_split (rev (drop_while p s))) as (pre2 & Hr & _).
  apply (f_equal (@rev N)) in Hr.
  rewrite rev_involutive, rev_app_distr in Hr.
  apply (head_ok_prefix _ (rev pre2)). rewrite <- Hr. apply drop_while_head.
Qed.

Lemma strip_class_last s : head_ok p (rev (strip_class p s)).
Proof. unfold strip_class. rewrite rev_involutive. apply drop_while_head. Qed.

Lemma strip_class_id s :
  head_ok p s → head_ok p (rev s) → strip_class p s = s.
Proof.
  intros Hh Hl. unfold strip_class.
  rewrite (drop_while_id s), (drop_while_id (rev s)) by done.
  apply rev_involutive.
Qed.

Lemma strip_class_all s :
  Forall (λ c, p c = true) s → strip_class p s = [].
Proof. intros H. unfold strip_class. rewrite (drop_while_all s H). done. Qed.

Lemma strip_class_length s : (length (strip_class p s) ≤ length s)%nat.
Proof.
  destruct (strip_class_split s) as (pre & post & Hs & _).
  rewrite Hs at 2. rewrite !length_app. lia.
Qed.

(** A string ends in the class exactly when its reverse starts in it. *)
Lemma not_ends_in_last s : ¬ ends_in p s → head_ok p (rev s).
Proof.
  intros H. destruct (rev s) as [|c r] eqn:E; simpl; [done|].
  destruct (p c) eqn:Hc; [|done]. destruct H. exists (rev r), c.
  split; [|done]. apply (f_equal (@rev N)) in E.
  by rewrite rev_involutive in E.
Qed.

Lemma last_not_ends_in s : head_ok p (rev s) → ¬ ends_in p s.
Proof.
  intros H (r & c & -> & Hc). rewrite rev_app_distr in H. simpl in H.
  congruence.
Qed.
End Classes.

Lemma replace_class_length cls r s : length (replace_class cls r s) = length s.
Proof. apply length_map. Qed.

Lemma replace_class_legal r s :
  is_illegal r = false → legal (replace_class is_illegal r s).
Proof.
  intros Hr. unfold legal, replace_class. apply Forall_map, Forall_forall.
  intros c _. simpl. by destruct (is_illegal c) eqn:Hc.
Qed.

Lemma replace_class_id r s : legal s → replace_class is_illegal r s = s.
Proof.
  unfold replace_class. induction 1 as [|c s Hc _ IH]; simpl; [done|].
  by rewrite Hc, IH.
Qed.

Lemma collapse_from_length b s : (length (collapse_from b s) ≤ length s)%nat.
Proof.
  revert b. induction s as [|c s IH]; intros b; simpl; [done|].
  pose proof (IH true). pose proof (IH false).
  destruct (is_space c), b; simpl; lia.
Qed.

Lemma collapse_from_legal b s : legal s → legal (collapse_from b s).
Proof.
  unfold legal. intros H. revert b.
  induction H as [|c s Hc _ IH]; intros b; simpl; [done|].
  destruct (is_space c), b; try constructor; auto.
Qed.

Lemma collapse_from_spaces b s :
  Forall (λ c, is_space c = true) s →
  Forall (λ c, is_space c = true) (collapse_from b s).
Proof.
  intros H. revert b.
  induction H as [|c s Hc _ IH]; intros b; simpl; [done|].
  rewrite Hc. destruct b; [done|]. by constructor.
Qed.

Lemma collapse_from_tidy b s : tidy b (collapse_from b s) = true.
Proof.
  revert b. induction s as [|c s IH]; intros b; simpl; [done|].
  destruct (is_space c) eqn:Hc.
  - destruct b; [done|]. simpl. apply IH.
  - simpl. rewrite Hc. apply IH.
Qed.

Lemma tidy_collapse_id b s : tidy b s = true → collapse_from b s = s.
Proof.
  revert b. induction s as [|c s IH]; intros b; simpl; [done|].
  destruct (is_space c).
  - rewrite !andb_true_iff, negb_true_iff, N.eqb_eq.
    intros [[-> ->] H]. f_equal. by apply IH.
  - intros H. f_equal. by apply IH.
Qed.

Lemma tidy_weaken b s : tidy b s = true → tidy false s = true.
Proof.
  destruct s as [|c s]; simpl; [done|].
  destruct (is_space c); [|done]. destruct b; [|done].
  by rewrite andb_false_r.
Qed.

Lemma tidy_app_l b s t : tidy b (s ++ t) = true → tidy b s = true.
Proof.
  revert b. induction s as [|c s IH]; intros b; simpl; [done|].
  destruct (is_space c).
  - rewrite !andb_true_iff. intros [? H]. split; [done|]. by apply IH.
  - apply IH.
Qed.

Lemma tidy_app_r b s t : tidy b (s ++ t) = true → tidy false t = true.
Proof.
  revert b. induction s as [|c s IH]; intros b; simpl; [apply tidy_weaken|].
  destruct (is_space c).
  - rewrite !andb_true_iff. intros [? H]. by apply (IH true).
  - apply IH.
Qed.

Lemma strip_class_tidy p s :
  tidy false s = true → tidy false (strip_class p s) = true.
Proof.
  destruct (strip_class_split p s) as (pre & post & Hs & _).
  intros H. rewrite Hs in H.
  apply tidy_app_r, tidy_app_l in H. done.
Qed.

Lemma strip_class_legal p s : legal s → legal (strip_class p s).
Proof.
  destruct (strip_class_split p s) as (pre & post & Hs & _).
  unfold legal. intros H. rewrite Hs in H.
  rewrite !Forall_app in H. tauto.
Qed.

(** What every run of a sanitizing chain gives, cut at [n] characters. *)
Lemma chain_output p r n s :
  is_illegal r = false →
  let y := substring0 n (strip_class p (collapse_spaces (replace_class is_illegal r s))) in
  legal y ∧ tidy false y = true ∧ head_ok p y ∧ (length y ≤ n)%nat.
Proof.
  intros Hr y. subst y. unfold substring0.
  set (x := strip_class p _).
  assert (legal x) as Hl.
  { apply strip_class_legal, collapse_from_legal, replace_class_legal, Hr. }
  assert (tidy false x = true) as Ht.
  { apply strip_class_tidy, collapse_from_tidy. }
  assert (head_ok p x) as Hh by apply strip_class_head.
  rewrite <- (take_drop n x) in Hl, Ht, Hh.
  split_and!.
  - unfold legal in *. rewrite Forall_app in Hl. tauto.
  - by apply tidy_app_l in Ht.
  - by apply head_ok_prefix in Hh.
  - rewrite length_take. lia.
Qed.

(** A string that is already clean goes through a chain unchanged. *)
Lemma chain_id p r n y :
  legal y → tidy false y = true → head_ok p y → ¬ ends_in p y →
  (length y ≤ n)%nat →
  substring0 n (strip_class p (collapse_spaces (replace_class is_illegal r y))) = y.
Proof.
  intros Hl Ht Hh He Hn. unfold substring0, collapse_spaces.
  rewrite replace_class_id, tidy_collapse_id by done.
  rewrite strip_class_id by (try apply not_ends_in_last; done).
  by apply take_ge.
Qed.

(** ** The folder name *)

Lemma blank_label_sanitizes_to_nothing label :
  only_illegal_or_space label →
  substring0 100 (trim (collapse_spaces (replace_class is_illegal 32 label))) = [].
Proof.
  intros H. unfold trim, collapse_spaces.
  rewrite strip_class_all; [done|].
  apply collapse_from_spaces. unfold replace_class.
  apply Forall_map. eapply Forall_impl; [exact H|]. simpl.
  intros x Hx. destruct (is_illegal x); [done|]. by simpl in Hx.
Qed.

(** C10. Two fallback constants: an absent or empty label gives the
    prefix [Classroom_Downloads]; a non-empty label whose sanitization is
    the empty string gives [Classroom_Download], and such are the labels
    made of refused characters and white space only. *)
Theorem fallback_folder_names (now : Date) :
  sessionFolderOf None now = lit "Classroom_Downloads_" ++ generateTimestamp now ∧
  sessionFolderOf (Some []) now = lit "Classroom_Downloads_" ++ generateTimestamp now ∧
  (∀ label, label ≠ [] →
     substring0 100 (trim (collapse_spaces (replace_class is_illegal 32 label))) = [] →
     sessionFolderOf (Some label) now
     = lit "Classroom_Download_" ++ generateTimestamp now) ∧
  (∀ label, label ≠ [] → only_illegal_or_space label →
     sessionFolderOf (Some label) now
     = lit "Classroom_Download_" ++ generateTimestamp now) ∧
  lit "Classroom_Downloads" ≠ lit "Classroom_Download".
Proof.
  assert (∀ label, label ≠ [] →
    substring0 100 (trim (collapse_spaces (replace_class is_illegal 32 label))) = [] →
    sessionFolderOf (Some label) now
    = lit "Classroom_Download_" ++ generateTimestamp now) as Hempty.
  { intros [|c label] Hne Hnil; [done|].
    unfold sessionFolderOf, folderNameOf, sanitizeFolderName.
    by rewrite Hnil. }
  split_and!; [reflexivity..|exact Hempty| |by vm_compute].
  intros label Hne Hall. by apply Hempty, blank_label_sanitizes_to_nothing.
Qed.

Lemma fallback_folder_names_witness :
  sessionFolderOf (Some (lit "?? : */ "))
    {| getFullYear := 2024; getMonth := 2; getDate := 7;
       getHours := 9; getMinutes := 5; getSeconds := 0 |}
  = lit "Classroom_Download_2024-03-07_09-05-00".
Proof.
  refine (eq_trans
    (proj1 (proj2 (proj2 (proj2 (fallback_folder_names _)))) (lit "?? : */ ") _ _) _).
  - vm_compute. discriminate.
  - unfold only_illegal_or_space. vm_compute. repeat constructor.
  - vm_compute. reflexivity.
Defined.

(** ** Idempotence of the sanitizers *)

Lemma sanitizeFolderName_cons c s :
  sanitizeFolderName (c :: s)
  = or_default
      (substring0 100
         (strip_class is_space
            (collapse_spaces (replace_class is_illegal 32 (c :: s)))))
      DEFAULT_FOLDER.
Proof. reflexivity. Qed.

Lemma sanitizeFolderName_idem s :
  ¬ ends_in is_space (sanitizeFolderName s) →
  sanitizeFolderName (sanitizeFolderName s) = sanitizeFolderName s.
Proof.
  destruct s as [|c s]; [done|]. rewrite sanitizeFolderName_cons.
  destruct (chain_output is_space 32 100 (c :: s) eq_refl) as (Hl & Ht & Hh & Hn).
  destruct (substring0 100 _) as [|c' y] eqn:E; [done|].
  unfold or_default. intros He.
  rewrite sanitizeFolderName_cons, chain_id; done.
Qed.

Lemma sanitizeFolderName_short s :
  (length s ≤ 100)%nat → ¬ ends_in is_space (sanitizeFolderName s).
Proof.
  intros Hlen. destruct s as [|c s].
  { apply last_not_ends_in. by vm_compute. }
  rewrite sanitizeFolderName_cons. unfold substring0.
  set (x := strip_class _ _).
  assert (length x ≤ 100)%nat as Hx.
  { subst x. etrans; [apply strip_class_length|].
    etrans; [apply collapse_from_length|]. by rewrite replace_class_length. }
  rewrite take_ge by done.
  destruct x as [|c' x'] eqn:E; simpl.
  - apply last_not_ends_in. by vm_compute.
  - apply last_not_ends_in. rewrite <- E. apply strip_class_last.
Qed.

(** *** Splitting a file name at its extension *)

Lemma forallb_alnum_dot name x : forallb is_alnum (name ++ dot :: x) = false.
Proof.
  induction name as [|c name IH]; simpl; [done|].
  rewrite IH. apply andb_false_r.
Qed.

Lemma has_extension_split f :
  has_extension f = true → ∃ name x, f = name ++ dot :: x ∧ extension_tail x.
Proof.
  induction f as [|c f IH]; [done|]. cbn [has_extension].
  rewrite orb_true_iff, !andb_true_iff, N.eqb_eq.
  intros [[[[-> Hx] H2] H5]|H].
  - exists [], f. split; [done|]. split; [done|].
    apply Nat.leb_le in H2, H5. lia.
  - destruct (IH H) as (name & x & -> & Hx). by exists (c :: name), x.
Qed.

Lemma has_extension_app name x :
  extension_tail x → has_extension (name ++ dot :: x) = true.
Proof.
  intros [Hx [H2 H5]].
  induction name as [|c name IH]; cbn [has_extension app].
  - rewrite Hx. apply Nat.leb_le in H2, H5. by rewrite H2, H5.
  - rewrite IH. apply orb_true_r.
Qed.

Lemma ext_match_app name x :
  extension_tail x → ext_match (name ++ dot :: x) = Some (dot :: x).
Proof.
  intros [Hx [H2 H5]].
  induction name as [|c name IH]; cbn [ext_match app].
  - rewrite Hx. destruct x; [simpl in H2; lia|done].
  - rewrite forallb_alnum_dot, andb_false_r. done.
Qed.

Lemma slice_off_app name e : slice_off (length e) (name ++ e) = name.
Proof.
  unfold slice_off. rewrite length_app.
  replace (length name + length e - length e)%nat with (length name) by lia.
  by rewrite take_app_length.
Qed.

Lemma name_part_app name x :
  extension_tail x → name_part (name ++ dot :: x) = name.
Proof.
  intros Hx. unfold name_part.
  rewrite has_extension_app, ext_match_app by done. apply slice_off_app.
Qed.

(** *** The two branches of [sanitizeFilename] *)

Lemma sanitizeFilename_with_ext name x url :
  extension_tail x →
  sanitizeFilename (name ++ dot :: x) url
  = or_default (substring0 200 (clean_name name)) DEFAULT_FILE ++ dot :: x.
Proof.
  intros Hx. unfold sanitizeFilename.
  rewrite has_extension_app, ext_match_app by done.
  by rewrite slice_off_app.
Qed.

Lemma sanitizeFilename_without_ext f url :
  has_extension f = false →
  sanitizeFilename f url
  = or_default (substring0 200 (clean_name f)) DEFAULT_FILE ++ impliedExtension url.
Proof.
  intros Hf. unfold sanitizeFilename, impliedExtension. rewrite Hf.
  repeat match goal with |- context [if includes ?u ?t then _ else _] =>
    destruct (includes u t) end; reflexivity.
Qed.

Lemma impliedExtension_cases url :
  impliedExtension url = [] ∨
  ∃ x, impliedExtension url = dot :: x ∧ extension_tail x.
Proof.
  unfold impliedExtension.
  repeat match goal with |- context [if includes ?u ?t then _ else _] =>
    destruct (includes u t) end;
    first [ by left
          | right; eexists; split; [reflexivity|split; [reflexivity|simpl; lia]] ].
Qed.

(** *** The sanitized name part *)

Lemma sanitized_name_clean n :
  clean_stem (or_default (substring0 200 (clean_name n)) DEFAULT_FILE).
Proof.
  destruct (chain_output is_junk underscore 200 n eq_refl) as (Hl & Ht & Hh & Hn).
  unfold clean_name.
  destruct (substring0 200 _) as [|c y]; simpl.
  - unfold clean_stem, legal. split_and!; try by vm_compute.
    + vm_compute. repeat constructor.
    + vm_compute. lia.
  - unfold clean_stem. split_and!; done.
Qed.

Lemma resanitize_clean y :
  clean_stem y → ¬ ends_in is_junk y →
  or_default (substring0 200 (clean_name y)) DEFAULT_FILE = y.
Proof.
  intros (Hl & Ht & Hh & Hn & Hne) He. unfold clean_name.
  rewrite chain_id by done. by destruct y.
Qed.

Lemma clean_stem_prefix n e :
  clean_stem (n ++ dot :: e) → clean_stem n.
Proof.
  intros (Hl & Ht & Hh & Hn & _). unfold clean_stem, legal in *.
  rewrite Forall_app in Hl. rewrite length_app in Hn.
  split_and!; [tauto|by apply tidy_app_l in Ht|by apply head_ok_prefix in Hh|lia|].
  intros ->. simpl in Hh. by vm_compute in Hh.
Qed.

Lemma sanitizeFilename_idem s url :
  ¬ ends_in is_junk (name_part (sanitizeFilename s url)) →
  sanitizeFilename (sanitizeFilename s url) url = sanitizeFilename s url.
Proof.
  assert (∀ n x, extension_tail x →
    let r := or_default (substring0 200 (clean_name n)) DEFAULT_FILE ++ dot :: x in
    ¬ ends_in is_junk (name_part r) → sanitizeFilename r url = r) as Hext.
  { intros n x Hx r. subst r. rewrite name_part_app by done. intros He.
    rewrite sanitizeFilename_with_ext by done.
    by rewrite resanitize_clean by (try apply sanitized_name_clean; done). }
  destruct (has_extension s) eqn:Hs.
  - apply has_extension_split in Hs as (name & x & -> & Hx).
    rewrite sanitizeFilename_with_ext by done. by apply Hext.
  - rewrite sanitizeFilename_without_ext by done.
    destruct (impliedExtension_cases url) as [Hi|(x & Hi & Hx)].
    + rewrite Hi, app_nil_r.
      pose proof (sanitized_name_clean s) as Hc.
      set (y := or_default _ _) in *. clearbody y.
      destruct (has_extension y) eqn:Hy.
      * apply has_extension_split in Hy as (n2 & x2 & -> & Hx2).
        rewrite name_part_app by done. intros He.
        rewrite sanitizeFilename_with_ext by done.
        by rewrite resanitize_clean by (try eapply clean_stem_prefix; done).
      * unfold name_part. rewrite Hy. intros He.
        rewrite sanitizeFilename_without_ext, Hi, app_nil_r by done.
        by apply resanitize_clean.
    + rewrite Hi. by apply Hext.
Qed.

(** Short inputs are never cut, so their name part ends cleanly. *)
Lemma clean_name_length n : (length (clean_name n) ≤ length n)%nat.
Proof.
  unfold clean_name. etrans; [apply strip_class_length|].
  etrans; [apply collapse_from_length|]. by rewrite replace_class_length.
Qed.

Lemma sanitized_name_uncut n :
  (length n ≤ 200)%nat →
  ¬ ends_in is_junk (or_default (substring0 200 (clean_name n)) DEFAULT_FILE).
Proof.
  intros Hn. unfold substring0.
  rewrite take_ge by (etrans; [apply clean_name_length|done]).
  apply last_not_ends_in.
  destruct (clean_name n) as [|c y] eqn:E; simpl or_default.
  - by vm_compute.
  - rewrite <- E. apply strip_class_last.
Qed.

(** C3, as the code has it.  Each sanitizer is idempotent at every input
    whose result ends cleanly: a folder name that does not end in white
    space, a file name whose name part does not end in white space, a dot
    or an underscore.  This covers every label of at most 100
    characters, and every file name of at most 200 characters that has a
    recognised extension or takes one from the URL. *)
Theorem sanitizers_idempotent_on_clean_results :
  (∀ s, ¬ ends_in is_space (sanitizeFolderName s) →
     sanitizeFolderName (sanitizeFolderName s) = sanitizeFolderName s) ∧
  (∀ s url, ¬ ends_in is_junk (name_part (sanitizeFilename s url)) →
     sanitizeFilename (sanitizeFilename s url) url = sanitizeFilename s url) ∧
  (∀ s, (length s ≤ 100)%nat →
     sanitizeFolderName (sanitizeFolderName s) = sanitizeFolderName s) ∧
  (∀ s url, (length s ≤ 200)%nat →
     has_extension s = true ∨ impliedExtension url ≠ [] →
     sanitizeFilename (sanitizeFilename s url) url = sanitizeFilename s url).
Proof.
  split_and!.
  - apply sanitizeFolderName_idem.
  - apply sanitizeFilename_idem.
  - intros s Hs. by apply sanitizeFolderName_idem, sanitizeFolderName_short.
  - intros s url Hlen Hext. apply sanitizeFilename_idem.
    destruct (has_extension s) eqn:Hs.
    + apply has_extension_split in Hs as (name & x & -> & Hx).
      rewrite sanitizeFilename_with_ext, name_part_app by done.
      apply sanitized_name_uncut. rewrite length_app in Hlen. lia.
    + rewrite sanitizeFilename_without_ext by done.
      destruct (impliedExtension_cases url) as [Hi|(x & Hi & Hx)].
      * by destruct Hext.
      * rewrite Hi, name_part_app by done. by apply sanitized_name_uncut.
Qed.

Lemma sanitizers_idempotent_on_clean_results_witness :
  sanitizeFolderName (sanitizeFolderName (lit "Homework #1: A/B"))
  = sanitizeFolderName (lit "Homework #1: A/B") ∧
  sanitizeFilename (sanitizeFilename (lit "My File?.pdf") []) []
  = sanitizeFilename (lit "My File?.pdf") [] ∧
  sanitizeFilename
    (sanitizeFilename (lit "Notes: week 1") (lit "https://docs.google.com/document/d/D1/edit"))
    (lit "https://docs.google.com/document/d/D1/edit")
  = sanitizeFilename (lit "Notes: week 1") (lit "https://docs.google.com/document/d/D1/edit").
Proof.
  split_and!.
  - apply (proj1 sanitizers_idempotent_on_clean_results).
    apply last_not_ends_in. vm_compute. reflexivity.
  - apply (proj1 (proj2 sanitizers_idempotent_on_clean_results)).
    apply last_not_ends_in. vm_compute. reflexivity.
  - apply (proj2 (proj2 (proj2 sanitizers_idempotent_on_clean_results))).
    + vm_compute. lia.
    + right. vm_compute. discriminate.
Defined.

(** C3, as stated, fails for both sanitizers: cutting at the length
    limit can leave a trailing space, and a name that is trimmed into one
    with a recognised extension is split differently the second time. *)
Lemma sanitizers_not_idempotent :
  sanitizeFolderName (sanitizeFolderName (replicate 99 97 ++ lit " b"))
  ≠ sanitizeFolderName (replicate 99 97 ++ lit " b") ∧
  sanitizeFilename (sanitizeFilename (lit "a_.pdf ") []) []
  ≠ sanitizeFilename (lit "a_.pdf ") [].
Proof. split; vm_compute; discriminate. Qed.

(** *** The hypotheses are exact *)

Lemma sanitizeFolderName_length s : (length (sanitizeFolderName s) ≤ 100)%nat.
Proof.
  destruct s as [|c s]; [vm_compute; lia|].
  rewrite sanitizeFolderName_cons. unfold substring0.
  destruct (take 100 _) as [|c' y] eqn:E; [vm_compute; lia|].
  unfold or_default. rewrite <- E, length_take. lia.
Qed.

(** X20. A folder name is a fixed point of its sanitizer exactly when it
    does not end in white space. *)
Remark sanitizeFolderName_idem_iff s :
  sanitizeFolderName (sanitizeFolderName s) = sanitizeFolderName s
  ↔ ¬ ends_in is_space (sanitizeFolderName s).
Proof.
  split; [|apply sanitizeFolderName_idem].
  intros Heq. rewrite <- Heq.
  apply sanitizeFolderName_short, sanitizeFolderName_length.
Qed.

Lemma sanitized_name_fixed n :
  or_default (substring0 200 (clean_name n)) DEFAULT_FILE = n →
  ¬ ends_in is_junk n.
Proof.
  intros Hn. rewrite <- Hn. apply sanitized_name_uncut.
  apply (f_equal length) in Hn. revert Hn. unfold substring0.
  pose proof (clean_name_length n) as Hlen.
  destruct (take 200 (clean_name n)) as [|c y] eqn:E; unfold or_default.
  - intros <-. vm_compute. lia.
  - rewrite <- E, length_take. lia.
Qed.

(** X21. A sanitized file name is a fixed point of its sanitizer, for
    the same URL, exactly when its name part does not end in white space,
    a dot or an underscore. *)
Remark sanitizeFilename_idem_iff s url :
  sanitizeFilename (sanitizeFilename s url) url = sanitizeFilename s url
  ↔ ¬ ends_in is_junk (name_part (sanitizeFilename s url)).
Proof.
  split; [|apply sanitizeFilename_idem].
  set (r := sanitizeFilename s url). clearbody r. intros Heq.
  destruct (has_extension r) eqn:Hr.
  - apply has_extension_split in Hr as (n & x & -> & Hx).
    rewrite sanitizeFilename_with_ext in Heq by done.
    apply app_inv_tail in Heq. rewrite name_part_app by done.
    by apply sanitized_name_fixed.
  - unfold name_part. rewrite Hr.
    rewrite sanitizeFilename_without_ext in Heq by done.
    destruct (impliedExtension_cases url) as [Hi|(x & Hi & Hx)]; rewrite Hi in Heq.
    + rewrite app_nil_r in Heq. by apply sanitized_name_fixed.
    + rewrite <- Heq, has_extension_app in Hr by done. discriminate.
Qed.

(** ** The extension taken from the URL *)

Lemma FirstMatch_Contains l1 l2 stop url id :
  FirstMatch (l1 ++ l2) stop url id → Contains url l1.
Proof.
  intros (pre & post & (Hu & _) & _). exists pre, (l2 ++ id ++ post).
  rewrite Hu. by rewrite <- !app_assoc.
Qed.

(** C8, as the code has it.  For a file name without a recognised
    extension, the appended extension is decided by substring tests on the
    URL, first match first: [.docx] when it contains
    [docs.google.com/document], [.xlsx] when it contains
    [docs.google.com/spreadsheets], [.pptx] when it contains
    [docs.google.com/presentation], nothing otherwise.  A URL that matches
    the word-processor pattern of the resolver therefore gets [.docx]. *)
Theorem sanitizeFilename_url_extension (filename url : jsstring) :
  has_extension filename = false →
  ∃ ext,
    sanitizeFilename filename url = sanitizeFilename filename [] ++ ext ∧
    (Contains url (lit "docs.google.com/document") → ext = lit ".docx") ∧
    (¬ Contains url (lit "docs.google.com/document") →
     Contains url (lit "docs.google.com/spreadsheets") → ext = lit ".xlsx") ∧
    (¬ Contains url (lit "docs.google.com/document") →
     ¬ Contains url (lit "docs.google.com/spreadsheets") →
     Contains url (lit "docs.google.com/presentation") → ext = lit ".pptx") ∧
    (¬ Contains url (lit "docs.google.com/document") →
     ¬ Contains url (lit "docs.google.com/spreadsheets") →
     ¬ Contains url (lit "docs.google.com/presentation") → ext = []) ∧
    (∀ id, FirstMatch re_docs slash url id → ext = lit ".docx").
Proof.
  intros Hf. exists (impliedExtension url).
  rewrite !sanitizeFilename_without_ext by done.
  assert (impliedExtension [] = []) as -> by reflexivity.
  rewrite app_nil_r. split; [done|].
  assert (∀ id, FirstMatch re_docs slash url id →
            Contains url (lit "docs.google.com/document")) as Hdocs.
  { intros id.
    change re_docs with (lit "docs.google.com/document" ++ lit "/d/").
    apply FirstMatch_Contains. }
  unfold impliedExtension.
  rewrite <- !includes_false in *.
  setoid_rewrite <- includes_Contains. setoid_rewrite <- includes_Contains in Hdocs.
  destruct (includes url (lit "docs.google.com/document")) eqn:E1;
  destruct (includes url (lit "docs.google.com/spreadsheets")) eqn:E2;
  destruct (includes url (lit "docs.google.com/presentation")) eqn:E3;
    split_and!; intros; try done;
    match goal with H : FirstMatch _ _ _ _ |- _ => by apply Hdocs in H end.
Qed.

Lemma sanitizeFilename_url_extension_witness :
  ∃ ext,
    sanitizeFilename (lit "Budget") (lit "https://docs.google.com/spreadsheets/d/XYZ/edit")
    = sanitizeFilename (lit "Budget") [] ++ ext ∧ ext = lit ".xlsx".
Proof.
  destruct (sanitizeFilename_url_extension
              (lit "Budget") (lit "https://docs.google.com/spreadsheets/d/XYZ/edit"))
    as (ext & Hs & _ & Hx & _).
  - vm_compute. reflexivity.
  - exists ext. split; [exact Hs|]. apply Hx.
    + apply includes_false. vm_compute. reflexivity.
    + apply includes_Contains. vm_compute. reflexivity.
Defined.

(** C8, as stated, fails: this URL matches no rewrite pattern of the
    resolver, which returns it unchanged, and yet [.docx] is appended. *)
Lemma sanitizeFilename_extension_not_mirrored :
  has_extension (lit "notes") = false ∧
  NoMatch re_docs slash (lit "https://docs.google.com/document/u/0/") ∧
  convertToDownloadUrl (lit "https://docs.google.com/document/u/0/")
  = lit "https://docs.google.com/document/u/0/" ∧
  sanitizeFilename (lit "notes") (lit "https://docs.google.com/document/u/0/")
  = lit "notes" ++ lit ".docx".
Proof.
  split_and!; [|apply regex_capture_None|..]; vm_compute; reflexivity.
Qed.

(** ** The batch *)

Section BatchProperties.
Context {World : Type} `{!DownloadsApi World}.

Lemma download_loop_spec folder atts acc (w : World) :
  (download_loop folder atts acc w).1
  = acc ++ zip_with result_of atts (manager_replies folder atts w).
Proof.
  revert acc w. induction atts as [|a atts IH]; intros acc w; simpl.
  - by rewrite app_nil_r.
  - unfold downloadFile. fold (request_for folder a).
    destruct (chrome_downloads_download (request_for folder a) w) as [cb w'].
    unfold result_of. simpl.
    destruct (lastError cb) as [message|]; [|destruct (downloadId cb) as [id|]];
      rewrite IH, <- app_assoc; reflexivity.
Qed.

Lemma manager_replies_length folder atts (w : World) :
  length (manager_replies folder atts w) = length atts.
Proof.
  revert w. induction atts as [|a atts IH]; intros w; simpl; [done|].
  destruct (chrome_downloads_download _ w) as [cb w']. simpl. by rewrite IH.
Qed.

(** C4. One result per record, in the order of the records: the record
    at index [i] gets a successful result carrying the download
    identifier when the manager's answer to call [i] has no error and an
    identifier, and a failed result carrying a message otherwise; every
    record is attempted, whatever happened to the earlier ones. *)
Theorem handleDownloadRequest_results atts label now (w : World) :
  let results := (handleDownloadRequest atts label now w).1 in
  let replies := manager_replies (sessionFolderOf label now) atts w in
  length results = length atts ∧
  length replies = length atts ∧
  map res_url results = map att_url atts ∧
  ∀ i a cb, atts !! i = Some a → replies !! i = Some cb →
    (∀ id, lastError cb = None → downloadId cb = Some id →
       results !! i = Some {| res_url := att_url a; res_success := true;
                              res_downloadId := Some id; res_error := None |}) ∧
    (lastError cb ≠ None ∨ downloadId cb = None →
       ∃ message,
         results !! i = Some {| res_url := att_url a; res_success := false;
                                res_downloadId := None;
                                res_error := Some message |}).
Proof.
  intros results replies. subst results.
  unfold handleDownloadRequest. rewrite download_loop_spec. simpl.
  fold replies.
  assert (length replies = length atts) as Hlen
    by apply manager_replies_length.
  split_and!.
  - rewrite length_zip_with. lia.
  - done.
  - clearbody replies. revert replies Hlen.
    induction atts as [|a atts IH]; intros [|cb replies] Hlen;
      simplify_eq/=; [done|].
    f_equal; [|by apply IH].
    unfold result_of. by destruct (lastError cb), (downloadId cb).
  - intros i a cb Ha Hcb. rewrite lookup_zip_with, Ha, Hcb. simpl.
    unfold result_of. split.
    + intros id -> ->. done.
    + intros [Herr|Hid].
      * destruct (lastError cb) as [message|]; [eauto|done].
      * rewrite Hid. destruct (lastError cb); eauto.
Qed.
End BatchProperties.

Lemma handleDownloadRequest_results_witness :
  (@handleDownloadRequest nat second_call_fails three_records
     (Some (lit "Unit 3")) noon 0%nat).1 !! 1%nat
  = Some {| res_url := lit "https://docs.google.com/document/d/B2/edit";
            res_success := false; res_downloadId := None;
            res_error := Some (lit "Network error") |}.
Proof.
  destruct (@handleDownloadRequest_results nat second_call_fails three_records
              (Some (lit "Unit 3")) noon 0%nat) as (_ & _ & _ & H).
  destruct (H 1%nat
              {| att_url := lit "https://docs.google.com/document/d/B2/edit";
                 att_filename := lit "Essay" |}
              {| lastError := Some (lit "Network error"); downloadId := None |})
    as [_ Hfail]; [reflexivity | vm_compute; reflexivity |].
  destruct Hfail as [message Hm]; [left; discriminate|].
  vm_compute. reflexivity.
Defined.

(** The batch of three whose second call fails: three results, in order,
    the second one failed and the other two succeeded. *)
Example batch_of_three :
  map (λ r, (res_url r, res_success r))
    (@handleDownloadRequest nat second_call_fails three_records
       (Some (lit "Unit 3")) noon 0%nat).1
  = [ (lit "https://drive.google.com/file/d/A1/view", true);
      (lit "https://docs.google.com/document/d/B2/edit", false);
      (lit "https://drive.google.com/open?id=C3", true) ].
Proof. vm_compute. reflexivity. Qed.

(** ** The scanner *)

Lemma scan_link_cases st link :
  scan_link st link = st ∨
  ((href link ∉ seenUrls st) ∧ href link ≠ [] ∧
   isNavigationLink (href link) = false ∧
   hasValidExtension (extractFilename link) = true ∧
   scan_link st link
   = {| files := files st ++ [{| att_url := href link;
                                 att_filename := extractFilename link |}];
        seenUrls := {[href link]} ∪ seenUrls st |}).
Proof.
  unfold scan_link.
  destruct (href link) as [|c u] eqn:Eu; [by left|]. cbn [orb].
  case_bool_decide as Hseen; [by left|]. cbn [orb].
  destruct (isNavigationLink (c :: u)); [by left|].
  destruct (hasValidExtension (extractFilename link)); [|by left].
  right. done.
Qed.

Lemma scan_link_invariant st link :
  scan_invariant st → scan_invariant (scan_link st link).
Proof.
  intros (Hseen & Hnd & Hext).
  destruct (scan_link_cases st link) as [->|(Hnew & _ & _ & Hv & ->)]; [done|].
  unfold scan_invariant. simpl. rewrite map_app. simpl. split_and!.
  - intros u. rewrite elem_of_union, elem_of_singleton, Hseen.
    rewrite elem_of_app, list_elem_of_singleton. tauto.
  - apply NoDup_app. split_and!; [done| |apply NoDup_singleton].
    intros u Hu ->%list_elem_of_singleton. by apply Hnew, Hseen.
  - apply Forall_app. split; [done|]. by repeat constructor.
Qed.

Lemma scan_fold_invariant st links :
  scan_invariant st → scan_invariant (fold_left scan_link links st).
Proof.
  revert st. induction links as [|l links IH]; intros st H; simpl; [done|].
  by apply IH, scan_link_invariant.
Qed.

Lemma scan_invariant_init : scan_invariant {| files := []; seenUrls := ∅ |}.
Proof.
  unfold scan_invariant. simpl. split_and!; [|constructor|constructor].
  intros u. rewrite elem_of_nil. set_solver.
Qed.

Lemma scanForFiles_invariant document :
  scan_invariant (fold_left scan_link (querySelectorAll_links document)
                    {| files := []; seenUrls := ∅ |}).
Proof. apply scan_fold_invariant, scan_invariant_init. Qed.

(** Seen URLs stay seen. *)
Lemma scan_link_seen st link u :
  u ∈ seenUrls st → u ∈ seenUrls (scan_link st link).
Proof.
  intros Hu.
  destruct (scan_link_cases st link) as [->|(_ & _ & _ & _ & ->)]; [done|].
  simpl. apply elem_of_union. by right.
Qed.

Lemma scan_fold_seen st links u :
  u ∈ seenUrls st → u ∈ seenUrls (fold_left scan_link links st).
Proof.
  revert st. induction links as [|l links IH]; intros st H; simpl; [done|].
  by apply IH, scan_link_seen.
Qed.

(** An admissible link leaves its URL in the set. *)
Lemma scan_link_admissible st link :
  href link ≠ [] → isNavigationLink (href link) = false →
  hasValidExtension (extractFilename link) = true →
  href link ∈ seenUrls (scan_link st link).
Proof.
  intros Hne Hnav Hv. unfold scan_link.
  destruct (href link) as [|c u] eqn:Eu; [done|]. cbn [orb].
  case_bool_decide as Hseen; [done|]. cbn [orb].
  rewrite Hnav, Hv. cbn [negb seenUrls]. apply elem_of_union. left. by apply elem_of_singleton.
Qed.

Lemma querySelectorAll_links_app l1 l2 :
  querySelectorAll_links (l1 ++ l2)
  = querySelectorAll_links l1 ++ querySelectorAll_links l2.
Proof. apply filter_app. Qed.

Lemma filter_url_absent (u : jsstring) (rs : list Attachment) :
  u ∉ map att_url rs → filter (λ r, att_url r = u) rs = [].
Proof.
  induction rs as [|r rs IH]; simpl; [done|].
  intros [Hr Hrs]%not_elem_of_cons. rewrite filter_cons.
  case_decide; [congruence|]. by apply IH.
Qed.

Lemma count_one_of_NoDup (u : jsstring) (rs : list Attachment) :
  NoDup (map att_url rs) → u ∈ map att_url rs →
  length (filter (λ r, att_url r = u) rs) = 1%nat.
Proof.
  induction rs as [|r rs IH]; simpl.
  - intros _ H. by apply elem_of_nil in H.
  - intros [Hr Hnd]%NoDup_cons. rewrite elem_of_cons, filter_cons.
    case_decide as Hu.
    + intros _. rewrite filter_url_absent by congruence. done.
    + intros [?|Hin]; [congruence|]. by apply IH.
Qed.

(** C5. The URLs of the records of one scan are pairwise distinct; and
    when a page holds an admissible anchor for a URL, however many anchors
    point to that URL, the scan emits exactly one record for it. *)
Theorem scanForFiles_distinct_urls :
  (∀ document, NoDup (map att_url (scanForFiles document))) ∧
  (∀ document a, a ∈ document → admissible a →
     length (filter (λ r, att_url r = href a) (scanForFiles document)) = 1%nat).
Proof.
  split.
  - intros document. by destruct (scanForFiles_invariant document) as (_ & ? & _).
  - intros document a Hin (Hsel & Hne & Hnav & Hv).
    destruct (scanForFiles_invariant document) as (Hseen & Hnd & _).
    apply count_one_of_NoDup; [done|]. apply Hseen.
    apply list_elem_of_split in Hin as (l1 & l2 & ->).
    rewrite querySelectorAll_links_app.
    change (a :: l2) with ([a] ++ l2). rewrite querySelectorAll_links_app.
    assert (querySelectorAll_links [a] = [a]) as ->.
    { unfold querySelectorAll_links. rewrite filter_cons.
      by case_decide. }
    rewrite !fold_left_app. simpl.
    by apply scan_fold_seen, scan_link_admissible.
Qed.

Lemma scanForFiles_distinct_urls_witness :
  length (filter (λ r, att_url r = lit "https://drive.google.com/file/d/A1/view")
            (scanForFiles two_links_one_file)) = 1%nat.
Proof.
  refine (proj2 scanForFiles_distinct_urls two_links_one_file
            {| hrefAttr := lit "https://drive.google.com/file/d/A1/view";
               href := lit "https://drive.google.com/file/d/A1/view";
               textContent := lit "Week 1.pdf"; cardTitle := None;
               titleAttr := None; ariaLabel := None |} _ _).
  - apply elem_of_cons. left. reflexivity.
  - unfold admissible. split_and!.
    + vm_compute. reflexivity.
    + vm_compute. discriminate.
    + vm_compute. reflexivity.
    + vm_compute. reflexivity.
Defined.

Example scan_two_links_one_file :
  scanForFiles two_links_one_file
  = [ {| att_url := lit "https://drive.google.com/file/d/A1/view";
         att_filename := lit "Week 1.pdf" |} ].
Proof. vm_compute. reflexivity. Qed.

(** ** The extension allow-list *)

Ltac N_bools :=
  repeat match goal with
  | H : _ && _ = true |- _ => apply andb_true_iff in H as [? ?]
  | H : _ || _ = false |- _ => apply orb_false_iff in H as [? ?]
  | H : negb _ = true |- _ => apply negb_true_iff in H
  | H : negb _ = false |- _ => apply negb_false_iff in H
  | H : (_ <=? _) = true |- _ => apply N.leb_le in H
  | H : (_ <=? _) = false |- _ => apply N.leb_gt in H
  | H : (_ =? _) = true |- _ => apply N.eqb_eq in H
  | H : (_ =? _) = false |- _ => apply N.eqb_neq in H
  end.

Lemma lower_unit_ascii x y :
  y < 192 → lower_unit x = y → same_letter x y.
Proof.
  unfold lower_unit, same_letter. intros Hy.
  destruct ((65 <=? x) && (x <=? 90)) eqn:E1; simpl.
  - N_bools. intros <-. right. lia.
  - destruct ((192 <=? x) && (x <=? 222) && negb (x =? 215)) eqn:E2.
    + N_bools. lia.
    + intros ->. by left.
Qed.

Lemma same_letter_lower x y :
  lower_unit y = y → same_letter x y → lower_unit x = y.
Proof.
  intros Hy [->|[Hx ->]]; [done|]. unfold lower_unit.
  destruct (N.leb_spec 65 x), (N.leb_spec x 90); simpl; lia.
Qed.

Lemma lower_unit_dot x : lower_unit x = dot ↔ x = dot.
Proof.
  split; [|by intros ->]. unfold lower_unit, dot.
  destruct ((65 <=? x) && (x <=? 90)) eqn:E1; simpl.
  - N_bools. lia.
  - destruct ((192 <=? x) && (x <=? 222) && negb (x =? 215)) eqn:E2; [|done].
    N_bools. lia.
Qed.

Lemma VALID_EXTENSIONS_lower ext :
  ext ∈ VALID_EXTENSIONS →
  Forall (λ c, c < 192 ∧ lower_unit c = c) ext.
Proof.
  intros Hin.
  assert (Forall (Forall (λ c, c < 192 ∧ lower_unit c = c)) VALID_EXTENSIONS) as H.
  { vm_compute. repeat constructor. }
  rewrite Forall_forall in H. by apply H.
Qed.

Lemma map_lower_same suffix ext :
  Forall (λ c, c < 192 ∧ lower_unit c = c) ext →
  map lower_unit suffix = ext ↔ Forall2 same_letter suffix ext.
Proof.
  intros Hext. revert suffix.
  induction Hext as [|y ext [Hy Hl] _ IH]; intros [|x suffix]; simpl.
  - split; [constructor|done].
  - split; [done|inversion 1].
  - split; [done|inversion 1].
  - rewrite Forall2_cons, <- IH. split.
    + intros [= Hx Hs]. split; [by apply lower_unit_ascii|done].
    + intros [Hx ->]. f_equal. by apply same_letter_lower.
Qed.

Lemma endsWith_true s t : endsWith s t = true ↔ ∃ r, s = r ++ t.
Proof.
  unfold endsWith. rewrite startsWith_true. split.
  - intros [r Hr]. exists (rev r). apply (f_equal (@rev N)) in Hr.
    by rewrite rev_involutive, rev_app_distr, rev_involutive in Hr.
  - intros [r ->]. exists (rev r). apply rev_app_distr.
Qed.

(** The test of the code is the allow-list property. *)
Lemma hasValidExtension_spec filename :
  hasValidExtension filename = true ↔ has_allowed_extension filename.
Proof.
  unfold hasValidExtension, has_allowed_extension, toLowerCase.
  rewrite existsb_exists. split.
  - intros (ext & Hin%list_elem_of_In & (r & Hr)%endsWith_true).
    change (dot :: ext) with ([dot] ++ ext) in Hr.
    apply map_eq_app in Hr as (stem & rest & -> & Hstem & Hrest).
    apply map_eq_app in Hrest as (d & suffix & -> & Hd & Hsuffix).
    destruct d as [|d [|]]; simplify_eq/=.
    match goal with H : lower_unit d = dot |- _ => apply lower_unit_dot in H as -> end.
    exists stem, suffix, (map lower_unit suffix). split_and!; [done..|].
    apply map_lower_same; [by apply VALID_EXTENSIONS_lower|done].
  - intros (stem & suffix & ext & -> & Hin & Hs).
    exists ext. split; [by apply list_elem_of_In|].
    apply endsWith_true. exists (map lower_unit stem).
    rewrite map_app. cbn [map]. change (lower_unit dot) with dot. do 2 f_equal.
    apply map_lower_same; [by apply VALID_EXTENSIONS_lower|done].
Qed.

Lemma hasValidExtension_exe stem :
  hasValidExtension (stem ++ lit ".exe") = false.
Proof.
  unfold hasValidExtension, toLowerCase, endsWith.
  rewrite map_app, rev_app_distr. reflexivity.
Qed.

Lemma scan_link_rejected st link :
  hasValidExtension (extractFilename link) = false → scan_link st link = st.
Proof.
  intros Hv. destruct (scan_link_cases st link) as [->|(_ & _ & _ & Hv' & _)];
    [done|congruence].
Qed.

(** C6. Every record of a scan has a file name ending, up to case, in a
    dot and an extension of the allow-list, and an anchor whose extracted
    file name does not end so contributes nothing to the scan: the result
    is the one of the page without it.  A name ending in [.exe] is such a
    name. *)
Theorem scanForFiles_allowed_extensions :
  (∀ document r, r ∈ scanForFiles document →
     has_allowed_extension (att_filename r)) ∧
  (∀ before a after, ¬ has_allowed_extension (extractFilename a) →
     scanForFiles (before ++ a :: after) = scanForFiles (before ++ after)) ∧
  (∀ stem, ¬ has_allowed_extension (stem ++ lit ".exe")).
Proof.
  split_and!.
  - intros document r Hr.
    destruct (scanForFiles_invariant document) as (_ & _ & Hext).
    rewrite Forall_forall in Hext. by apply hasValidExtension_spec, Hext.
  - intros before a after Hbad.
    assert (hasValidExtension (extractFilename a) = false) as Hv.
    { destruct (hasValidExtension (extractFilename a)) eqn:E; [|done].
      by apply hasValidExtension_spec in E. }
    unfold scanForFiles.
    change (a :: after) with ([a] ++ after).
    rewrite !querySelectorAll_links_app, !fold_left_app. do 2 f_equal.
    unfold querySelectorAll_links at 1. rewrite filter_cons.
    case_decide; simpl; [by apply scan_link_rejected|done].
  - intros stem H%hasValidExtension_spec.
    by rewrite hasValidExtension_exe in H.
Qed.

Lemma scanForFiles_allowed_extensions_witness :
  has_allowed_extension (lit "Week 1.pdf") ∧
  scanForFiles (two_links_one_file ++ [setup_exe_link])
  = scanForFiles (two_links_one_file ++ []).
Proof.
  split.
  - apply (proj1 scanForFiles_allowed_extensions two_links_one_file
             {| att_url := lit "https://drive.google.com/file/d/A1/view";
                att_filename := lit "Week 1.pdf" |}).
    assert (scanForFiles two_links_one_file
            = [ {| att_url := lit "https://drive.google.com/file/d/A1/view";
                   att_filename := lit "Week 1.pdf" |} ]) as ->
      by (vm_compute; reflexivity).
    apply elem_of_cons. left. reflexivity.
  - apply (proj1 (proj2 scanForFiles_allowed_extensions)).
    intros H%hasValidExtension_spec. vm_compute in H. discriminate.
Defined.

(** * Further properties *)

(** ** What sanitized names look like *)

Lemma is_alnum_legal c : is_alnum c = true → is_illegal c = false.
Proof.
  unfold is_alnum, is_illegal. intros H.
  repeat match goal with |- context [?a =? ?b] =>
    destruct (N.eqb_spec a b); [subst; by vm_compute in H|] end.
  reflexivity.
Qed.

Lemma is_alnum_not_space c : is_alnum c = true → is_space c = false.
Proof.
  unfold is_alnum, is_space. intros H.
  repeat match goal with
  | |- context [?a =? ?b] =>
      destruct (N.eqb_spec a b); [subst; by vm_compute in H|]
  | |- context [?a <=? ?b] => destruct (N.leb_spec a b)
  end; simpl; try reflexivity;
  repeat match goal with
  | H : context [?a <=? ?b] |- _ => destruct (N.leb_spec a b); try lia
  end; simpl in H; try discriminate; lia.
Qed.


Lemma tidy_plain_spaces b s : tidy b s = true → plain_spaces s.
Proof.
  unfold plain_spaces. revert b. induction s as [|c s IH]; intros b; simpl.
  - constructor.
  - destruct (is_space c) eqn:Hc.
    + rewrite !andb_true_iff, N.eqb_eq. intros [[-> _] H].
      constructor; [done|by eapply IH].
    + intros H. constructor; [congruence|by eapply IH].
Qed.

(** X1. Whatever the label, the folder name is not empty, has at most
    100 characters, holds none of the refused characters, starts with no
    white space, and holds no white space but single spaces. *)
Theorem sanitizeFolderName_wellformed (name : jsstring) :
  sanitizeFolderName name ≠ [] ∧
  (length (sanitizeFolderName name) ≤ 100)%nat ∧
  legal (sanitizeFolderName name) ∧
  head_ok is_space (sanitizeFolderName name) ∧
  plain_spaces (sanitizeFolderName name) ∧
  tidy false (sanitizeFolderName name) = true.
Proof.
  assert (legal DEFAULT_FOLDER) as Hd by (vm_compute; repeat constructor).
  assert (plain_spaces DEFAULT_FOLDER) as Hp
    by (apply (tidy_plain_spaces false); reflexivity).
  destruct name as [|c s]; [by split_and!; try done; vm_compute; lia|].
  rewrite sanitizeFolderName_cons.
  destruct (chain_output is_space 32 100 (c :: s) eq_refl) as (Hl & Ht & Hh & Hn).
  destruct (substring0 100 _) as [|c' y] eqn:E; unfold or_default.
  - split_and!; try done. vm_compute; lia.
  - split_and!; try done. by apply (tidy_plain_spaces false).
Qed.

Lemma extension_tail_legal x : extension_tail x → legal (dot :: x).
Proof.
  intros [Hx _]. constructor; [reflexivity|].
  rewrite forallb_forall in Hx. apply Forall_forall.
  intros c Hc. apply is_alnum_legal, Hx. by apply list_elem_of_In.
Qed.


(** The shape of every result of [sanitizeFilename]. *)
Lemma sanitizeFilename_shape filename url :
  ∃ stem ext,
    sanitizeFilename filename url = stem ++ ext ∧ clean_stem stem ∧
    (ext = [] ∨ ∃ x, ext = dot :: x ∧ extension_tail x).
Proof.
  destruct (has_extension filename) eqn:Hf.
  - apply has_extension_split in Hf as (name & x & -> & Hx).
    eexists _, (dot :: x). split; [by apply sanitizeFilename_with_ext|].
    split; [apply sanitized_name_clean|]. right. eauto.
  - eexists _, (impliedExtension url).
    split; [by apply sanitizeFilename_without_ext|].
    split; [apply sanitized_name_clean|]. apply impliedExtension_cases.
Qed.


(** X3. A recognised extension survives sanitization as it is, letter
    case included, and whatever the URL: the result is a clean name part
    followed by the extension of the input, and it is recognised again. *)
Theorem sanitizeFilename_keeps_extension (filename url : jsstring) :
  has_extension filename = true →
  ∃ stem ext,
    ext_match filename = Some ext ∧
    sanitizeFilename filename url = stem ++ ext ∧
    clean_stem stem ∧
    has_extension (sanitizeFilename filename url) = true ∧
    ext_match (sanitizeFilename filename url) = Some ext ∧
    sanitizeFilename filename url = sanitizeFilename filename [].
Proof.
  intros (name & x & -> & Hx)%has_extension_split.
  eexists _, (dot :: x). rewrite !sanitizeFilename_with_ext by done.
  split_and!; try done.
  - by apply ext_match_app.
  - apply sanitized_name_clean.
  - by apply has_extension_app.
  - by apply ext_match_app.
Qed.

Lemma sanitizeFilename_keeps_extension_witness :
  ∃ stem,
    sanitizeFilename (lit " Report: final?.PdF") (lit "https://docs.google.com/document/d/D1/edit")
    = stem ++ lit ".PdF".
Proof.
  destruct (sanitizeFilename_keeps_extension (lit " Report: final?.PdF")
              (lit "https://docs.google.com/document/d/D1/edit"))
    as (stem & ext & Hm & Hs & _); [vm_compute; reflexivity|].
  exists stem. rewrite Hs. f_equal.
  vm_compute in Hm. by injection Hm as <-.
Defined.

(** ** The destination path *)

Lemma string_of_uint_digits u :
  Forall (λ c, 48 ≤ c ≤ 57) (lit (NilEmpty.string_of_uint u)).
Proof.
  induction u; simpl; constructor; try done; vm_compute; split; discriminate.
Qed.

Lemma String_of_int_chars n :
  Forall (λ c, 48 ≤ c ≤ 57 ∨ c = dash) (String_of_int n).
Proof.
  assert (∀ u, Forall (λ c, 48 ≤ c ≤ 57 ∨ c = dash)
                 (lit (NilZero.string_of_uint u))) as Hu.
  { intros u. destruct u;
      try (eapply Forall_impl; [apply string_of_uint_digits|]; simpl; tauto).
    constructor; [left; vm_compute; split; discriminate|constructor]. }
  unfold String_of_int. destruct (Z.to_int n) as [u|u]; simpl.
  - apply Hu.
  - constructor; [by right|apply Hu].
Qed.

Lemma digits_legal s :
  Forall (λ c, 48 ≤ c ≤ 57 ∨ c = dash) s → legal s.
Proof.
  intros H. eapply Forall_impl; [exact H|]. simpl.
  intros c Hc. unfold is_illegal, dash in *.
  repeat match goal with |- context [?a =? ?b] =>
    destruct (N.eqb_spec a b); [lia|] end.
  reflexivity.
Qed.

Lemma padStart_legal n s : legal s → legal (padStart n zero_char s).
Proof.
  intros Hs. unfold padStart, legal. apply Forall_app. split; [|done].
  apply Forall_replicate. reflexivity.
Qed.

Lemma legal_app s t : legal s → legal t → legal (s ++ t).
Proof. intros. by apply Forall_app. Qed.

Lemma legal_pad2 n : legal (padStart 2 zero_char (String_of_int n)).
Proof. apply padStart_legal, digits_legal, String_of_int_chars. Qed.

Lemma generateTimestamp_legal now : legal (generateTimestamp now).
Proof.
  assert (legal [dash]) as Hd by (by repeat constructor).
  assert (legal [underscore]) as Hu by (by repeat constructor).
  unfold generateTimestamp.
  repeat first [ apply legal_pad2 | exact Hd | exact Hu
               | apply digits_legal, String_of_int_chars | apply legal_app ].
Qed.

Lemma sanitizeFolderName_legal name :
  sanitizeFolderName name ≠ [] ∧ legal (sanitizeFolderName name).
Proof.
  assert (legal DEFAULT_FOLDER) as Hd by (vm_compute; repeat constructor).
  destruct name as [|c s]; [done|]. rewrite sanitizeFolderName_cons.
  destruct (chain_output is_space 32 100 (c :: s) eq_refl) as (Hl & _).
  by destruct (substring0 100 _).
Qed.

Lemma sanitizeFilename_legal filename url :
  sanitizeFilename filename url ≠ [] ∧
  legal (sanitizeFilename filename url) ∧
  head_ok is_junk (sanitizeFilename filename url).
Proof.
  destruct (sanitizeFilename_shape filename url)
    as (stem & ext & -> & (Hl & _ & Hh & _ & Hne) & Hext).
  split_and!; [by destruct stem| |by destruct stem].
  apply legal_app; [done|].
  destruct Hext as [->|(x & -> & Hx)]; [constructor|by apply extension_tail_legal].
Qed.

(** X4. The path handed to the download manager is [Classroom], the
    session folder and the sanitized file name, joined by two slashes;
    for every label, clock and record, neither the folder nor the file
    name is empty or holds a slash, a backslash or another refused
    character, and the file name does not start with a dot: the file
    lands exactly two levels below the download directory. *)
Theorem download_path_components (label : option jsstring) (now : Date)
    (a : Attachment) :
  ∃ folder file,
    opt_filename (request_for (sessionFolderOf label now) a)
    = lit "Classroom/" ++ folder ++ [slash] ++ file ∧
    folder = sessionFolderOf label now ∧
    file = sanitizeFilename (att_filename a) (att_url a) ∧
    folder ≠ [] ∧ legal folder ∧ file ≠ [] ∧ legal file ∧
    head_ok is_junk file ∧
    (slash ∉ folder) ∧ (slash ∉ file) ∧ (92 ∉ folder) ∧ (92 ∉ file).
Proof.
  exists (sessionFolderOf label now),
         (sanitizeFilename (att_filename a) (att_url a)).
  destruct (sanitizeFilename_legal (att_filename a) (att_url a))
    as (Hne & Hl & Hh).
  assert (legal (sessionFolderOf label now)) as Hf.
  { unfold sessionFolderOf, folderNameOf.
    apply legal_app; [apply sanitizeFolderName_legal|].
    apply legal_app; [by repeat constructor|apply generateTimestamp_legal]. }
  assert (sessionFolderOf label now ≠ []) as Hfne.
  { unfold sessionFolderOf.
    pose proof (sanitizeFolderName_legal
                  (match label with
                   | Some (c :: n) => c :: n
                   | _ => lit "Classroom_Downloads"
                   end)) as [Hn _].
    unfold folderNameOf. by destruct (sanitizeFolderName _). }
  assert (∀ s c, legal s → is_illegal c = true → c ∉ s) as Hnot.
  { intros s c Hs Hc Hin. unfold legal in Hs. rewrite Forall_forall in Hs.
    specialize (Hs c Hin). congruence. }
  split_and!; try done; by apply Hnot.
Qed.

(** ** The calls to the download manager *)

Section ManagerCalls.
Context {World : Type} `{!DownloadsApi World}.

Lemma download_loop_world folder atts acc (w : World) :
  (download_loop folder atts acc w).2
  = serve_all (map (request_for folder) atts) w.
Proof.
  revert acc w. induction atts as [|a atts IH]; intros acc w; simpl; [done|].
  unfold downloadFile. fold (request_for folder a).
  destruct (chrome_downloads_download (request_for folder a) w) as [cb w'].
  simpl. destruct (lastError cb); [|destruct (downloadId cb)]; apply IH.
Qed.

(** X5. The batch acts on the browser through the download manager
    only: it serves one request per record, in the order of the records
    and whatever the earlier answers were, each asking for the converted
    URL, the path under the session folder and no prompt; an empty batch
    makes no call and returns no result. *)
Theorem handleDownloadRequest_calls atts label now (w : World) :
  (handleDownloadRequest atts label now w).2
  = serve_all (map (request_for (sessionFolderOf label now)) atts) w ∧
  Forall (λ request, opt_saveAs request = false)
    (map (request_for (sessionFolderOf label now)) atts) ∧
  map opt_url (map (request_for (sessionFolderOf label now)) atts)
  = map (λ a, convertToDownloadUrl (att_url a)) atts ∧
  handleDownloadRequest [] label now w = ([], w).
Proof.
  split_and!.
  - apply download_loop_world.
  - apply Forall_map, Forall_forall. done.
  - rewrite map_map. done.
  - done.
Qed.
End ManagerCalls.

(** ** Timestamps tell batches apart *)

Lemma digit_inj x y : digit x = digit y → (x mod 10 = y mod 10)%Z.
Proof.
  unfold digit. intros H.
  pose proof (Z.mod_pos_bound x 10). pose proof (Z.mod_pos_bound y 10). lia.
Qed.

Lemma two_digits_inj x y :
  (0 ≤ x < 100)%Z → (0 ≤ y < 100)%Z → two_digits x = two_digits y → x = y.
Proof.
  unfold two_digits. intros Hx Hy [= H1%digit_inj H0%digit_inj].
  Z.div_mod_to_equations. lia.
Qed.

Lemma four_digits_inj x y :
  (0 ≤ x < 10000)%Z → (0 ≤ y < 10000)%Z → four_digits x = four_digits y → x = y.
Proof.
  unfold four_digits.
  intros Hx Hy [= H3%digit_inj H2%digit_inj H1%digit_inj H0%digit_inj].
  Z.div_mod_to_equations. lia.
Qed.

Lemma timestamp_layout_inj a b :
  calendar_date a → calendar_date b →
  timestamp_layout a = timestamp_layout b → a = b.
Proof.
  intros (Hy & Hm & Hd & Hh & Hmi & Hs) (Hy' & Hm' & Hd' & Hh' & Hmi' & Hs').
  destruct a as [y m d h mi s], b as [y' m' d' h' mi' s'].
  cbn [getFullYear getMonth getDate getHours getMinutes getSeconds] in *.
  unfold timestamp_layout, four_digits, two_digits.
  cbn [app getFullYear getMonth getDate getHours getMinutes getSeconds].
  intros [= E1 E2 E3 E4 E5 E6 E7 E8 E9 E10 E11 E12 E13 E14].
  assert (y = y') by (apply four_digits_inj; [lia..|unfold four_digits; congruence]).
  assert (m + 1 = m' + 1)%Z
    by (apply two_digits_inj; [lia..|unfold two_digits; congruence]).
  assert (d = d') by (apply two_digits_inj; [lia..|unfold two_digits; congruence]).
  assert (h = h') by (apply two_digits_inj; [lia..|unfold two_digits; congruence]).
  assert (mi = mi') by (apply two_digits_inj; [lia..|unfold two_digits; congruence]).
  assert (s = s') by (apply two_digits_inj; [lia..|unfold two_digits; congruence]).
  f_equal; lia.
Qed.

(** X6. For calendar dates the timestamp has 19 characters and
    determines the clock reading to the second; hence, for one label, two
    batches started at different seconds are saved in different session
    folders. *)
Theorem timestamps_tell_batches_apart (label : option jsstring) (a b : Date) :
  calendar_date a → calendar_date b →
  length (generateTimestamp a) = 19%nat ∧
  (generateTimestamp a = generateTimestamp b → a = b) ∧
  (a ≠ b → sessionFolderOf label a ≠ sessionFolderOf label b).
Proof.
  intros Ha Hb.
  assert (generateTimestamp a = generateTimestamp b → a = b) as Hinj.
  { rewrite !generateTimestamp_layout by done. by apply timestamp_layout_inj. }
  split_and!; [|done|].
  - rewrite generateTimestamp_layout by done. reflexivity.
  - intros Hne Heq. apply Hne, Hinj. unfold sessionFolderOf in Heq.
    by apply app_inv_head, app_inv_head in Heq.
Qed.

Lemma timestamps_tell_batches_apart_witness :
  sessionFolderOf (Some (lit "Unit 3")) noon
  ≠ sessionFolderOf (Some (lit "Unit 3"))
      {| getFullYear := 2024; getMonth := 2; getDate := 7;
         getHours := 12; getMinutes := 0; getSeconds := 1 |}.
Proof.
  apply (timestamps_tell_batches_apart (Some (lit "Unit 3")) noon
           {| getFullYear := 2024; getMonth := 2; getDate := 7;
              getHours := 12; getMinutes := 0; getSeconds := 1 |}).
  - unfold calendar_date; simpl; lia.
  - unfold calendar_date; simpl; lia.
  - discriminate.
Defined.

(** ** The scan, anchor by anchor *)

Lemma scan_link_eq st link :
  scan_link st link
  = if decide (href link ≠ [] ∧ (href link ∉ seenUrls st) ∧
               isNavigationLink (href link) = false ∧
               hasValidExtension (extractFilename link) = true)
    then {| files := files st ++ [record_of link];
            seenUrls := {[href link]} ∪ seenUrls st |}
    else st.
Proof.
  unfold scan_link, record_of.
  destruct (href link) as [|c u] eqn:Eu; cbn [orb].
  { case_decide as H; [by destruct H as [? _]|done]. }
  case_bool_decide as Hseen; cbn [orb].
  { case_decide as H; [by destruct H as (_ & ? & _)|done]. }
  destruct (isNavigationLink (c :: u)).
  { case_decide as H; [by destruct H as (_ & _ & ? & _)|done]. }
  destruct (hasValidExtension (extractFilename link)); cbn [negb].
  - by rewrite decide_True.
  - case_decide as H; [by destruct H as (_ & _ & _ & ?)|done].
Qed.

(** Scanning one more anchor at the end of the page. *)
Lemma scanForFiles_snoc document a :
  scanForFiles (document ++ [a])
  = scanForFiles document ++
    (if decide (admissible a ∧ (href a ∉ map att_url (scanForFiles document)))
     then [record_of a] else []).
Proof.
  unfold scanForFiles.
  rewrite querySelectorAll_links_app, fold_left_app.
  pose proof (scanForFiles_invariant document) as (Hseen & _ & _).
  set (st := fold_left scan_link (querySelectorAll_links document) _) in *.
  unfold querySelectorAll_links at 1. rewrite filter_cons, filter_nil.
  unfold admissible. case_decide as Hsel; cbn [fold_left].
  - rewrite scan_link_eq.
    case_decide as H1; case_decide as H2; cbn [files];
      [done| | |by rewrite app_nil_r].
    + destruct H2. destruct H1 as (? & ? & ? & ?). by rewrite <- Hseen.
    + destruct H1. destruct H2 as ((_ & ? & ? & ?) & ?). by rewrite Hseen.
  - rewrite decide_False; [by rewrite app_nil_r|]. by intros [[? _] _].
Qed.

(** The URLs of a scan are those of the admissible anchors. *)
Lemma scanForFiles_urls document u :
  u ∈ map att_url (scanForFiles document)
  ↔ ∃ b, b ∈ document ∧ admissible b ∧ href b = u.
Proof.
  induction document as [|a document IH] using rev_ind.
  - split; [by intros ?%elem_of_nil|]. by intros (b & ?%elem_of_nil & _).
  - rewrite scanForFiles_snoc, map_app, elem_of_app, IH. split.
    + intros [(b & Hb & Hadm & <-)|Hu].
      * exists b. split; [apply elem_of_app; by left|done].
      * case_decide as Hc; [|by apply elem_of_nil in Hu].
        apply list_elem_of_singleton in Hu as ->. exists a.
        split; [apply elem_of_app; right; by apply list_elem_of_singleton|].
        by destruct Hc.
    + intros (b & [Hb|Hb%list_elem_of_singleton]%elem_of_app & Hadm & <-).
      * left. by exists b.
      * subst b.
        destruct (decide (href a ∈ map att_url (scanForFiles document)))
          as [Hin|Hnin].
        { left. by apply IH. }
        right. rewrite decide_True by done. by apply list_elem_of_singleton.
Qed.

(** X7. A scan lists records of admissible anchors only, each with the
    URL and the extracted file name of its anchor, in the order of the
    anchors in the page. *)
Theorem scanForFiles_in_document_order (document : list Anchor) :
  scanForFiles document `sublist_of` map record_of (filter admissible document).
Proof.
  induction document as [|a document IH] using rev_ind; [done|].
  rewrite scanForFiles_snoc, filter_app, map_app.
  apply sublist_app; [done|].
  rewrite filter_cons, filter_nil.
  case_decide as Hc.
  - destruct Hc as [Hadm _]. by rewrite decide_True.
  - apply sublist_nil_l.
Qed.

(** X8. The first admissible anchor of a URL wins: a record is in the
    scan exactly when it is the record of an admissible anchor that no
    admissible anchor with the same URL precedes. *)
Theorem scanForFiles_first_anchor_wins (document : list Anchor) (r : Attachment) :
  r ∈ scanForFiles document
  ↔ ∃ before a after,
      document = before ++ a :: after ∧ admissible a ∧ r = record_of a ∧
      ∀ b, b ∈ before → admissible b → href b ≠ href a.
Proof.
  induction document as [|a document IH] using rev_ind.
  - split; [by intros ?%elem_of_nil|].
    intros (before & a & after & H & _). by destruct before.
  - rewrite scanForFiles_snoc, elem_of_app, IH. split.
    + intros [(before & a0 & after & -> & Hadm & -> & Hfirst)|Hr].
      * exists before, a0, (after ++ [a]).
        split; [by rewrite <- app_assoc|done].
      * case_decide as Hc; [|by apply elem_of_nil in Hr].
        apply list_elem_of_singleton in Hr as ->. destruct Hc as [Hadm Hnew].
        exists document, a, []. split_and!; try done.
        intros b Hb Hbadm Heq. apply Hnew, scanForFiles_urls. eauto.
    + intros (before & a0 & after & Hdoc & Hadm & -> & Hfirst).
      destruct after as [|z after _] using rev_ind.
      * apply app_inj_tail in Hdoc as [-> ->]. right.
        rewrite decide_True; [by apply list_elem_of_singleton|].
        split; [done|]. intros (b & Hb & Hbadm & Heq)%scanForFiles_urls.
        by apply (Hfirst b).
      * rewrite app_comm_cons, app_assoc in Hdoc.
        apply app_inj_tail in Hdoc as [-> ->]. left.
        by exists before, a0, after.
Qed.

(** X9. Anchors whose URL an admissible anchor of the page already
    carries add nothing: scanning the page followed by them gives the scan
    of the page.  In particular a page repeated twice scans as the page
    itself. *)
Theorem scanForFiles_repeated_anchors (document more : list Anchor) :
  (∀ a, a ∈ more → admissible a →
     ∃ b, b ∈ document ∧ admissible b ∧ href b = href a) →
  scanForFiles (document ++ more) = scanForFiles document.
Proof.
  induction more as [|a more IH] using rev_ind; intros Hmore.
  - by rewrite app_nil_r.
  - rewrite app_assoc, scanForFiles_snoc, IH.
    + rewrite decide_False; [by rewrite app_nil_r|].
      intros [Hadm Hnew]. apply Hnew, scanForFiles_urls, Hmore; [|done].
      apply elem_of_app. right. by apply list_elem_of_singleton.
    + intros b Hb. apply Hmore, elem_of_app. by left.
Qed.

Lemma scanForFiles_repeated_anchors_witness :
  scanForFiles (two_links_one_file ++ two_links_one_file)
  = scanForFiles two_links_one_file.
Proof.
  apply scanForFiles_repeated_anchors. intros a Ha Hadm. by exists a.
Defined.

(** ** Extracted file names *)


Lemma first_line_blank s : blank s → blank (first_line s).
Proof.
  unfold blank. induction 1 as [|c s Hc _ IH]; simpl; [done|].
  destruct ((c =? 10) || (c =? 13)); [constructor|by constructor].
Qed.

Lemma trim_blank s : blank s → trim s = [].
Proof. apply strip_class_all. Qed.

(** X11. An anchor that offers nothing to read (a link text whose first
    line is blank, no card title or a blank one, blank or absent [title]
    and [aria-label]) gets the placeholder name, and the scanner never
    lists it: the scan is the one of the page without it. *)
Theorem unreadable_anchor_is_skipped (link : Anchor) :
  blank (first_line (textContent link)) →
  blank_or_absent (cardTitle link) →
  blank_or_absent (titleAttr link) →
  blank_or_absent (ariaLabel link) →
  extractFilename link = lit "unknown_file" ∧
  ∀ before after,
    scanForFiles (before ++ link :: after) = scanForFiles (before ++ after).
Proof.
  intros Htext Hcard Htitle Haria.
  assert (extractFilename link = lit "unknown_file") as Hname.
  { unfold extractFilename. rewrite (trim_blank _ Htext).
    cbn [cut_subtitle]. change (trim []) with (@nil N). cbn [ext_cut too_short length Nat.ltb Nat.leb].
    assert (first_line
              (or_default (attr_or_empty (titleAttr link))
                          (attr_or_empty (ariaLabel link))) = []
            ∨ blank (first_line
                 (or_default (attr_or_empty (titleAttr link))
                             (attr_or_empty (ariaLabel link))))) as Hattr.
    { right. apply first_line_blank.
      destruct (titleAttr link) as [[|c t]|], (ariaLabel link) as [[|c' t']|];
        simpl in *; try done; constructor. }
    assert (trim (first_line
              (or_default (attr_or_empty (titleAttr link))
                          (attr_or_empty (ariaLabel link)))) = []) as ->.
    { destruct Hattr as [->|H]; [done|by apply trim_blank]. }
    destruct (cardTitle link) as [t|].
    - simpl in Hcard. rewrite (trim_blank _ Hcard). reflexivity.
    - reflexivity. }
  split; [done|]. intros before after.
  unfold scanForFiles. change (link :: after) with ([link] ++ after).
  rewrite !querySelectorAll_links_app, !fold_left_app. do 2 f_equal.
  unfold querySelectorAll_links at 1. rewrite filter_cons.
  case_decide; simpl; [|done].
  apply scan_link_rejected. rewrite Hname. reflexivity.
Qed.

Lemma unreadable_anchor_is_skipped_witness :
  scanForFiles
    (two_links_one_file ++
     {| hrefAttr := lit "https://drive.google.com/file/d/Z9/view";
        href := lit "https://drive.google.com/file/d/Z9/view";
        textContent := lit "   " ++ [10] ++ lit "Attachment";
        cardTitle := None; titleAttr := Some (lit " ");
        ariaLabel := None |} :: [])
  = scanForFiles (two_links_one_file ++ []).
Proof.
  apply unreadable_anchor_is_skipped.
  - vm_compute. repeat constructor.
  - exact I.
  - vm_compute. repeat constructor.
  - exact I.
Defined.

(** ** The cut at the extension *)

Lemma strip_prefix_ci_spec p s r :
  strip_prefix_ci p s = Some r →
  s = take (length p) s ++ r ∧ length (take (length p) s) = length p ∧
  Forall2 (λ x y, canon y = canon x) (take (length p) s) p.
Proof.
  revert s. induction p as [|y p IH]; intros s; simpl.
  - intros [= ->]. by rewrite take_0.
  - destruct s as [|x s]; [done|].
    destruct (N.eqb_spec (canon y) (canon x)) as [Hc|]; [|done].
    intros (Hs & Hl & Hall)%IH. simpl. split_and!; [by rewrite <- Hs|by rewrite Hl|].
    by constructor.
Qed.

Lemma canon_same_letter x y :
  is_alnum y = true → lower_unit y = y → canon y = canon x → same_letter x y.
Proof.
  unfold is_alnum, lower_unit, canon, same_letter.
  destruct (N.leb_spec 97 y), (N.leb_spec y 122), (N.leb_spec 65 y),
    (N.leb_spec y 90), (N.leb_spec 48 y), (N.leb_spec y 57),
    (N.leb_spec 97 x), (N.leb_spec x 122); simpl; try discriminate;
    intros _ ?; lia.
Qed.

Lemma EXT_ALTERNATIVES_valid alt :
  alt ∈ EXT_ALTERNATIVES →
  alt ∈ VALID_EXTENSIONS ∧
  Forall (λ c, is_alnum c = true ∧ lower_unit c = c) alt ∧
  (2 ≤ length alt)%nat.
Proof.
  intros Hin.
  assert (Forall (λ alt, alt ∈ VALID_EXTENSIONS ∧
                   Forall (λ c, is_alnum c = true ∧ lower_unit c = c) alt ∧
                   (2 ≤ length alt)%nat) EXT_ALTERNATIVES) as H.
  { unfold EXT_ALTERNATIVES.
    repeat (apply Forall_cons; split;
            [split_and!;
             [apply (bool_decide_unpack _); vm_compute; exact I
             |vm_compute; repeat constructor
             |vm_compute; lia]|]).
    constructor. }
  rewrite Forall_forall in H. by apply H.
Qed.

Lemma match_alternative_spec s a :
  match_alternative EXT_ALTERNATIVES s = Some a →
  ∃ ext rest, s = a ++ rest ∧ ext ∈ VALID_EXTENSIONS ∧
    Forall2 same_letter a ext ∧ (2 ≤ length a)%nat.
Proof.
  assert (∀ alts, (∀ alt, alt ∈ alts → alt ∈ EXT_ALTERNATIVES) →
    match_alternative alts s = Some a →
    ∃ ext rest, s = a ++ rest ∧ ext ∈ VALID_EXTENSIONS ∧
      Forall2 same_letter a ext ∧ (2 ≤ length a)%nat) as H.
  { induction alts as [|alt alts IH]; intros Hsub; simpl; [done|].
    destruct (strip_prefix_ci alt s) as [r|] eqn:E.
    - intros [= <-]. apply strip_prefix_ci_spec in E as (Hs & Hl & Hall).
      destruct (EXT_ALTERNATIVES_valid alt) as (Hv & Hchars & Hlen);
        [apply Hsub; by left|].
      exists alt, r. split_and!; [done|done| |lia].
      clear Hs Hl Hv Hlen Hsub IH. revert Hchars.
      induction Hall as [|x y a' alt' Hxy _ IH']; [constructor|].
      intros [[Ha Hlow] Hchars]%Forall_cons.
      constructor; [by apply canon_same_letter|by apply IH'].
    - apply IH. intros alt' ?. apply Hsub. by right. }
  by apply H.
Qed.

Lemma ext_cut_cons c s :
  ext_cut (c :: s)
  = if is_line_terminator c then None
    else match
           match s with
           | d :: s'' =>
               if d =? dot
               then option_map (λ m, c :: d :: m)
                      (match_alternative EXT_ALTERNATIVES s'')
               else None
           | [] => None
           end
         with
         | Some m => Some m
         | None => option_map (cons c) (ext_cut s)
         end.
Proof. reflexivity. Qed.

Lemma ext_cut_spec s m :
  ext_cut s = Some m →
  ∃ stem a ext rest,
    m = stem ++ dot :: a ∧ s = m ++ rest ∧ stem ≠ [] ∧
    ext ∈ VALID_EXTENSIONS ∧ Forall2 same_letter a ext ∧ (2 ≤ length a)%nat.
Proof.
  revert m. induction s as [|c s IH]; intros m; [done|].
  rewrite ext_cut_cons.
  destruct (is_line_terminator c); [done|].
  assert (option_map (cons c) (ext_cut s) = Some m →
    ∃ stem a ext rest,
      m = stem ++ dot :: a ∧ c :: s = m ++ rest ∧ stem ≠ [] ∧
      ext ∈ VALID_EXTENSIONS ∧ Forall2 same_letter a ext ∧ (2 ≤ length a)%nat)
    as Hrec.
  { destruct (ext_cut s) as [m'|]; [|done]. intros [= <-].
    destruct (IH m' eq_refl) as (stem & a & ext & rest & -> & -> & _ & ? & ? & ?).
    exists (c :: stem), a, ext, rest. split_and!; done. }
  destruct s as [|d s']; [exact Hrec|].
  destruct (N.eqb_spec d dot) as [->|]; [|exact Hrec].
  destruct (match_alternative EXT_ALTERNATIVES s') as [a|] eqn:E; [|exact Hrec].
  cbn [option_map]. intros [= <-].
  apply match_alternative_spec in E as (ext & rest & -> & ? & ? & ?).
  exists [c], a, ext, rest. split_and!; done.
Qed.

Lemma VALID_EXTENSIONS_alnum ext :
  ext ∈ VALID_EXTENSIONS →
  Forall (λ c, is_alnum c = true) ext ∧ (2 ≤ length ext ≤ 4)%nat.
Proof.
  intros Hin.
  assert (Forall (λ ext, Forall (λ c, is_alnum c = true) ext ∧
                         (2 ≤ length ext ≤ 4)%nat) VALID_EXTENSIONS) as H.
  { unfold VALID_EXTENSIONS.
    repeat (apply Forall_cons; split;
            [split; [vm_compute; repeat constructor|vm_compute; lia]|]).
    constructor. }
  rewrite Forall_forall in H. by apply H.
Qed.

Lemma same_letter_alnum x y :
  is_alnum y = true → same_letter x y → is_alnum x = true.
Proof.
  intros Hy [->|[Hx ->]]; [done|]. unfold is_alnum.
  destruct (N.leb_spec 65 x), (N.leb_spec x 90); lia.
Qed.

Lemma same_letter_all_alnum a ext :
  ext ∈ VALID_EXTENSIONS → Forall2 same_letter a ext →
  Forall (λ c, is_alnum c = true) a.
Proof.
  intros [Hin _]%VALID_EXTENSIONS_alnum Hall.
  induction Hall as [|x y a ext Hxy _ IH]; [constructor|].
  apply Forall_cons in Hin as [Hy Hin].
  constructor; [by eapply same_letter_alnum|by apply IH].
Qed.

Lemma same_letter_plain a ext :
  ext ∈ VALID_EXTENSIONS → Forall2 same_letter a ext →
  Forall (λ c, is_space c = false) a.
Proof.
  intros Hin Hall. eapply Forall_impl; [by eapply same_letter_all_alnum|].
  apply is_alnum_not_space.
Qed.

Lemma collapse_from_app_plain b s t :
  Forall (λ c, is_space c = false) t →
  collapse_from b (s ++ t) = collapse_from b s ++ t.
Proof.
  intros Ht. revert b. induction s as [|c s IH]; intros b; simpl.
  - destruct Ht as [|c t Hc Ht]; simpl; [done|].
    rewrite Hc. f_equal. clear b c Hc.
    induction Ht as [|c t Hc _ IH]; simpl; [done|].
    rewrite Hc. by f_equal.
  - destruct (is_space c), b; by rewrite IH.
Qed.

Lemma extractFilename_cut link m :
  ext_cut (method1_text link) = Some m → too_short m = false →
  extractFilename link
  = if too_short (trim (collapse_spaces m)) then lit "unknown_file"
    else trim (collapse_spaces m).
Proof.
  intros Hcut Hm. unfold extractFilename.
  change (trim (cut_subtitle _ _)) with (method1_text link).
  rewrite Hcut. cbv zeta. rewrite Hm. cbv iota. rewrite Hm. reflexivity.
Qed.

(** X12. When the cleaned link text holds, after at least one character,
    a dot and an extension of the scanner's pattern, the name is cut right
    after that extension, whatever follows it; the result is the cut text
    with its white space collapsed, and it always passes the allow-list
    test: both lists of extensions agree. *)
Theorem extension_cut_is_accepted (link : Anchor) (m : jsstring) :
  ext_cut (method1_text link) = Some m →
  (∃ rest, method1_text link = m ++ rest) ∧
  extractFilename link = collapse_spaces m ∧
  has_allowed_extension (extractFilename link) ∧
  hasValidExtension (extractFilename link) = true.
Proof.
  intros Hcut.
  pose proof Hcut as (stem & a & ext & rest & Hm & Hs & Hstem & Hext & Hall & Hlen)%ext_cut_spec.
  pose proof (same_letter_plain a ext Hext Hall) as Hplain.
  assert (Forall (λ c, is_space c = false) (dot :: a)) as Hplain'
    by (by constructor).
  assert (collapse_spaces m = collapse_spaces stem ++ dot :: a) as Hcol.
  { subst m. by apply collapse_from_app_plain. }
  assert (head_ok is_space m) as Hhead.
  { apply (head_ok_prefix _ _ rest). rewrite <- Hs. apply strip_class_head. }
  assert (trim (collapse_spaces m) = collapse_spaces m) as Htrim.
  { apply strip_class_id.
    - subst m. destruct stem as [|c stem]; [done|]. simpl in *.
      unfold collapse_spaces. simpl. by rewrite Hhead.
    - rewrite Hcol, rev_app_distr. cbn [rev].
      destruct (rev a) as [|x r] eqn:E.
      + apply (f_equal length) in E. rewrite length_rev in E.
        simpl in E. lia.
      + simpl. rewrite Forall_forall in Hplain. apply Hplain.
        apply list_elem_of_In, in_rev. rewrite E. by left. }
  assert (extractFilename link = collapse_spaces m) as Hname.
  { rewrite (extractFilename_cut link m Hcut).
    - rewrite Htrim.
      assert (too_short (collapse_spaces m) = false) as ->; [|done].
      unfold too_short. apply Nat.ltb_ge. rewrite Hcol, length_app. simpl. lia.
    - unfold too_short. apply Nat.ltb_ge. subst m.
      destruct stem; [done|]. rewrite length_app. simpl. lia. }
  assert (has_allowed_extension (extractFilename link)) as Hok.
  { rewrite Hname, Hcol. by exists (collapse_spaces stem), a, ext. }
  split_and!; [by exists rest|done|done|by apply hasValidExtension_spec].
Qed.

Lemma extension_cut_is_accepted_witness :
  extractFilename
    {| hrefAttr := lit "https://drive.google.com/file/d/L1/view";
       href := lit "https://drive.google.com/file/d/L1/view";
       textContent := lit "Lecture  1.PPTXPowerPoint";
       cardTitle := None; titleAttr := None; ariaLabel := None |}
  = lit "Lecture 1.PPTX".
Proof.
  refine (eq_trans
    (proj1 (proj2 (extension_cut_is_accepted _ (lit "Lecture  1.PPTX") _))) _);
    vm_compute; reflexivity.
Defined.

(** ** The popup's view of a scan *)




Lemma getExtension_allowed filename :
  has_allowed_extension filename →
  Popup.getExtension filename ∈ VALID_EXTENSIONS.
Proof.
  intros (stem & suffix & ext & -> & Hin & Hall).
  pose proof (same_letter_all_alnum _ _ Hin Hall) as Halnum.
  destruct (VALID_EXTENSIONS_alnum ext Hin) as [_ Hlen].
  apply Forall2_length in Hall as Hl.
  assert (extension_tail suffix) as Htail.
  { split; [|lia]. apply forallb_forall. intros c Hc.
    rewrite Forall_forall in Halnum. by apply Halnum, list_elem_of_In. }
  unfold Popup.getExtension. rewrite ext_match_app by done.
  assert (toLowerCase suffix = ext) as ->; [|done].
  apply map_lower_same; [by apply VALID_EXTENSIONS_lower|done].
Qed.

(** X14. For every record of a scan the popup's extension label is an
    extension of the scanner's allow-list, and its icon class is the
    generic one for text files only. *)
Theorem popup_labels_scanned_files (document : list Anchor) (r : Attachment) :
  r ∈ scanForFiles document →
  Popup.getExtension (att_filename r) ∈ VALID_EXTENSIONS ∧
  (Popup.getIconClass (Popup.getExtension (att_filename r)) = lit "other"
   ↔ Popup.getExtension (att_filename r) = lit "txt").
Proof.
  intros Hr.
  assert (Popup.getExtension (att_filename r) ∈ VALID_EXTENSIONS) as Hin.
  { apply getExtension_allowed.
    destruct (scanForFiles_invariant document) as (_ & _ & Hext).
    rewrite Forall_forall in Hext. by apply hasValidExtension_spec, Hext. }
  split; [done|].
  assert (Forall (λ ext, Popup.getIconClass ext = lit "other" ↔ ext = lit "txt")
            VALID_EXTENSIONS) as H.
  { unfold VALID_EXTENSIONS.
    repeat (apply Forall_cons; split;
            [vm_compute; split; first [reflexivity | discriminate]|]).
    constructor. }
  rewrite Forall_forall in H. by apply H.
Qed.

Lemma popup_labels_scanned_files_witness :
  Popup.getExtension (lit "Week 1.pdf") ∈ VALID_EXTENSIONS.
Proof.
  apply (popup_labels_scanned_files two_links_one_file
           {| att_url := lit "https://drive.google.com/file/d/A1/view";
              att_filename := lit "Week 1.pdf" |}).
  assert (scanForFiles two_links_one_file
          = [ {| att_url := lit "https://drive.google.com/file/d/A1/view";
                 att_filename := lit "Week 1.pdf" |} ]) as ->
    by (vm_compute; reflexivity).
  apply elem_of_cons. left. reflexivity.
Defined.

(** ** The assignment name *)

Lemma first_title_Some page selectors name :
  first_title page selectors = Some name →
  name ≠ [] ∧ ∃ selector text,
    selector ∈ selectors ∧ querySelector_text page selector = Some text ∧
    name = trim text.
Proof.
  induction selectors as [|sel rest IH]; simpl; [done|].
  assert (first_title page rest = Some name →
    name ≠ [] ∧ ∃ selector text,
      selector ∈ sel :: rest ∧ querySelector_text page selector = Some text ∧
      name = trim text) as Hrest.
  { intros (Hne & s & t & Hin & Hq & Ht)%IH. split; [done|].
    exists s, t. split; [by right|done]. }
  destruct (querySelector_text page sel) as [text|] eqn:Hq; [|done].
  destruct (trim text) as [|c n] eqn:Ht; [done|].
  intros [= <-]. split; [done|]. exists sel, text. split; [by left|done].
Qed.




(** X15. Whatever the page, the assignment name is not empty and neither
    starts nor ends with white space; a download started with it
    therefore names its folder after it, never after the fallback kept
    for a missing label. *)
Theorem getAssignmentName_wellformed (page : Page) :
  getAssignmentName page ≠ [] ∧
  head_ok is_space (getAssignmentName page) ∧
  ¬ ends_in is_space (getAssignmentName page) ∧
  folderNameOf (Some (getAssignmentName page))
  = sanitizeFolderName (getAssignmentName page).
Proof.
  assert (getAssignmentName page ≠ [] ∧
          head_ok is_space (getAssignmentName page) ∧
          ¬ ends_in is_space (getAssignmentName page)) as (Hne & Hh & He).
  { unfold getAssignmentName.
    destruct (first_title page titleSelectors) as [name|] eqn:E.
    - apply first_title_Some in E as (Hne & _ & text & _ & _ & ->).
      split_and!; [done|apply strip_class_head|].
      apply last_not_ends_in, strip_class_last.
    - cbv zeta.
      set (t := trim (cut_suffix_ci _ _)).
      assert (∀ x, or_default (trim x) (lit "Classroom_Download") ≠ [] ∧
                head_ok is_space (or_default (trim x) (lit "Classroom_Download")) ∧
                ¬ ends_in is_space (or_default (trim x) (lit "Classroom_Download")))
        as Htrim.
      { intros x. destruct (trim x) as [|c y] eqn:Ex; unfold or_default.
        - split_and!; [done|done|]. apply last_not_ends_in. reflexivity.
        - rewrite <- Ex. split_and!; [by rewrite Ex|apply strip_class_head|].
          apply last_not_ends_in, strip_class_last. }
      destruct (includes t (lit " - ")); apply Htrim. }
  split_and!; try done.
  unfold folderNameOf. by destruct (getAssignmentName page).
Qed.



(** ** Links that are not rewritten *)

Lemma MatchAt_Contains l1 l2 stop url pre id post :
  MatchAt (l1 ++ l2) stop url pre id post → Contains url l1.
Proof.
  intros (Hu & _). exists pre, (l2 ++ id ++ post).
  rewrite Hu. by rewrite <- !app_assoc.
Qed.

(** X17. A URL that contains neither [drive.google.com/] nor
    [docs.google.com/] is fetched as it is. *)
Theorem convertToDownloadUrl_other_hosts (url : jsstring) :
  ¬ Contains url (lit "drive.google.com/") →
  ¬ Contains url (lit "docs.google.com/") →
  convertToDownloadUrl url = url.
Proof.
  intros Hdrive Hdocs. unfold convertToDownloadUrl.
  assert (regex_capture re_drive_file slash url = None) as ->.
  { apply regex_capture_None. intros pre id post H. apply Hdrive.
    by apply (MatchAt_Contains (lit "drive.google.com/") (lit "file/d/")) in H. }
  assert (regex_capture re_drive_open amp url = None) as ->.
  { apply regex_capture_None. intros pre id post H. apply Hdrive.
    by apply (MatchAt_Contains (lit "drive.google.com/") (lit "open?id=")) in H. }
  assert (regex_capture re_docs slash url = None) as ->.
  { apply regex_capture_None. intros pre id post H. apply Hdocs.
    by apply (MatchAt_Contains (lit "docs.google.com/") (lit "document/d/")) in H. }
  assert (regex_capture re_sheets slash url = None) as ->.
  { apply regex_capture_None. intros pre id post H. apply Hdocs.
    by apply (MatchAt_Contains (lit "docs.google.com/") (lit "spreadsheets/d/")) in H. }
  assert (regex_capture re_slides slash url = None) as ->.
  { apply regex_capture_None. intros pre id post H. apply Hdocs.
    by apply (MatchAt_Contains (lit "docs.google.com/") (lit "presentation/d/")) in H. }
  reflexivity.
Qed.

Lemma convertToDownloadUrl_other_hosts_witness :
  convertToDownloadUrl (lit "https://example.org/files/notes.pdf")
  = lit "https://example.org/files/notes.pdf".
Proof.
  apply convertToDownloadUrl_other_hosts;
    apply includes_false; vm_compute; reflexivity.
Defined.

(** ** A second pass settles folder names *)

(** X18. Sanitizing a folder name a second time always reaches a fixed
    point: the second result has at most 100 characters before the cut,
    so it ends cleanly. *)
Theorem sanitizeFolderName_settles (name : jsstring) :
  sanitizeFolderName (sanitizeFolderName (sanitizeFolderName name))
  = sanitizeFolderName (sanitizeFolderName name).
Proof.
  apply sanitizeFolderName_idem, sanitizeFolderName_short,
    sanitizeFolderName_length.
Qed.

(** ** The count shown after a batch *)

Lemma result_of_success a cb : res_success (result_of a cb) = answered_ok cb.
Proof.
  unfold result_of, answered_ok. by destruct (lastError cb), (downloadId cb).
Qed.

Lemma successCount_zip atts replies :
  length replies = length atts →
  Popup.successCount (zip_with result_of atts replies)
  = length (filter (λ cb, answered_ok cb = true) replies).
Proof.
  unfold Popup.successCount. revert replies.
  induction atts as [|a atts IH]; intros [|cb replies] Hlen;
    simplify_eq/=; [done|].
  rewrite !filter_cons, result_of_success.
  destruct (answered_ok cb) eqn:E.
  - rewrite !decide_True by done. simpl. f_equal. by apply IH.
  - rewrite !decide_False by done. by apply IH.
Qed.

Section BatchCount.
Context {World : Type} `{!DownloadsApi World}.

(** X19. The number of successes the popup reports after a batch is the
    number of calls the download manager answered with an identifier and
    no error; it is at most the number of records sent, and equal to it
    exactly when every call succeeded. *)
Theorem successCount_counts_answers atts label now (w : World) :
  let results := (handleDownloadRequest atts label now w).1 in
  let replies := manager_replies (sessionFolderOf label now) atts w in
  Popup.successCount results
  = length (filter (λ cb, answered_ok cb = true) replies) ∧
  (Popup.successCount results ≤ length atts)%nat ∧
  (Popup.successCount results = length atts
   ↔ Forall (λ cb, answered_ok cb = true) replies).
Proof.
  intros results replies. subst results.
  unfold handleDownloadRequest. rewrite download_loop_spec. cbn [app].
  fold replies.
  assert (length replies = length atts) as Hlen by apply manager_replies_length.
  rewrite successCount_zip by done. rewrite <- Hlen. clear Hlen.
  split_and!; [done|apply length_filter|].
  induction replies as [|cb replies IH]; simpl; [by split|].
  rewrite filter_cons. pose proof (length_filter (λ cb, answered_ok cb = true) replies).
  case_decide as Hcb; simpl.
  - rewrite Forall_cons. split.
    + intros [= H']. split; [done|]. by apply IH.
    + intros [_ H']. f_equal. by apply IH.
  - split; [lia|]. by intros [? _]%Forall_cons.
Qed.
End BatchCount.

Example successCount_of_three :
  Popup.successCount
    (@handleDownloadRequest nat second_call_fails three_records
       (Some (lit "Unit 3")) noon 0%nat).1 = 2%nat.
Proof. vm_compute. reflexivity. Qed.

(** ** From the scanner to the saved file *)

Lemma allowed_extension_tail filename :
  has_allowed_extension filename →
  ∃ stem suffix ext,
    filename = stem ++ dot :: suffix ∧ ext ∈ VALID_EXTENSIONS ∧
    Forall2 same_letter suffix ext ∧ extension_tail suffix.
Proof.
  intros (stem & suffix & ext & -> & Hin & Hall).
  exists stem, suffix, ext. split_and!; try done.
  pose proof (same_letter_all_alnum _ _ Hin Hall) as Halnum.
  destruct (VALID_EXTENSIONS_alnum ext Hin) as [_ Hlen].
  apply Forall2_length in Hall as Hl.
  split; [|lia]. apply forallb_forall. intros c Hc.
  rewrite Forall_forall in Halnum. by apply Halnum, list_elem_of_In.
Qed.

(** X22. Every record of a scan carries a recognised extension, so the
    orchestrator never takes the extension from the URL for it: the file
    is saved under a cleaned name followed by the extension the scanner
    saw, which is still on the allow-list. *)
Theorem scanned_files_keep_their_extension (document : list Anchor)
    (r : Attachment) :
  r ∈ scanForFiles document →
  has_extension (att_filename r) = true ∧
  has_allowed_extension (sanitizeFilename (att_filename r) (att_url r)) ∧
  ∃ stem ext,
    ext_match (att_filename r) = Some ext ∧ clean_stem stem ∧
    sanitizeFilename (att_filename r) (att_url r) = stem ++ ext.
Proof.
  intros Hr.
  assert (has_allowed_extension (att_filename r)) as Hok.
  { destruct (scanForFiles_invariant document) as (_ & _ & Hext).
    rewrite Forall_forall in Hext. by apply hasValidExtension_spec, Hext. }
  apply allowed_extension_tail in Hok
    as (stem & suffix & ext & -> & Hin & Hall & Htail).
  rewrite sanitizeFilename_with_ext by done. split_and!.
  - by apply has_extension_app.
  - by eexists _, suffix, ext.
  - eexists _, (dot :: suffix). split_and!; [by apply ext_match_app| |done].
    apply sanitized_name_clean.
Qed.

Lemma scanned_files_keep_their_extension_witness :
  has_extension (lit "Week 1.pdf") = true.
Proof.
  apply (scanned_files_keep_their_extension two_links_one_file
           {| att_url := lit "https://drive.google.com/file/d/A1/view";
              att_filename := lit "Week 1.pdf" |}).
  assert (scanForFiles two_links_one_file
          = [ {| att_url := lit "https://drive.google.com/file/d/A1/view";
                 att_filename := lit "Week 1.pdf" |} ]) as ->
    by (vm_compute; reflexivity).
  apply elem_of_cons. left. reflexivity.
Defined.
